(** * gemini::perf — timing and I/O byte instrumentation (perf_utils.h)

    A shallow embedding of [src/include/gemini/core/util/perf_utils.h]:
    the byte-delta value type, the two I/O scopes, the scoped timer and the
    stage timer, together with the clock, the process-wide mutex and the two
    console streams they act on.

    Conventions of the embedding:
    - [uint64_t] is a [Z] kept in [0, 2^64) by an explicit [wrap64];
    - [double] is a [spec_float] read at binary64 (precision 53, emax 1024);
    - [uint64_t*] is an address in [N], [0] being [nullptr], into a finite
      map of counters owned by the application;
    - [const char*] is an [option string], [None] being [nullptr];
    - every effect (clock read, counter read, accessor call, lock, unlock,
      stream insertion) is logged in the [trace] of the world, in the order
      in which the code performs it. *)

From Stdlib Require Import ZArith Lia.
From Stdlib Require Import Floats.SpecFloat.
From stdpp Require Import base gmap strings list pretty.

Local Open Scope Z_scope.

(** ** Machine numbers *)

Definition two64 : Z := 2 ^ 64.

(** Arithmetic on [uint64_t] is modulo [2^64]. *)
Definition wrap64 (z : Z) : Z := z mod two64.

Definition is_u64 (z : Z) : Prop := 0 <= z < two64.

(** [double]: IEEE 754 binary64. *)
Definition double : Type := spec_float.

Definition dbl_prec : Z := 53.
Definition dbl_emax : Z := 1024.

(** The literal [0.0]. *)
Definition dbl_zero : double := S754_zero false.

(** Integer literals written as [double], e.g. [1024.0]. *)
Definition dbl_of_Z (z : Z) : double :=
  binary_normalize dbl_prec dbl_emax z 0 false.

(** The conversion [double(x)] of a [uint64_t]: round to nearest, ties to
    even. *)
Definition dbl_of_u64 (x : Z) : double := dbl_of_Z x.

(** [x / y] on [double]. *)
Definition dbl_div (x y : double) : double := SFdiv dbl_prec dbl_emax x y.

(** ** IOBytesDelta *)

Module IOBytesDelta.

(** [struct IOBytesDelta { uint64_t begin = 0; uint64_t end = 0; ... }].
    ([end] is a keyword of the vernacular, hence [end_].) *)
Record t : Type := mk { begin : Z; end_ : Z }.

(** [IOBytesDelta{}] *)
Definition zero : t := mk 0 0.

(** [uint64_t bytes() const { return end - begin; }] *)
Definition bytes (d : t) : Z := wrap64 (end_ d - begin d).

(** [double mib() const { return double(bytes()) / 1024.0 / 1024.0; }] *)
Definition mib (d : t) : double :=
  dbl_div (dbl_div (dbl_of_u64 (bytes d)) (dbl_of_Z 1024)) (dbl_of_Z 1024).

End IOBytesDelta.

(** ** The world the instrumentation acts on *)

(** The two console streams. *)
Inductive stream : Type := Cout | Cerr.

Global Instance stream_eq_dec : EqDecision stream.
Proof. solve_decision. Defined.

(** Everything the code does to its environment, in program order. *)
Inductive event : Type :=
  | EvNow                                  (* Clock::now() *)
  | EvLoad (a : N)                         (* *counter_ *)
  | EvCall                                 (* reader_() *)
  | EvLock                                 (* cout_mutex().lock() *)
  | EvUnlock                               (* cout_mutex().unlock() *)
  | EvWrite (o : stream) (text : string).  (* one stream insertion *)

(** What the code must never do. *)
Inductive fault : Type :=
  | NullDeref            (* a null pointer is dereferenced *)
  | BadLoad (a : N)      (* a dangling counter pointer is dereferenced *)
  | BadCall              (* an empty std::function is invoked *)
  | Deadlock.            (* the non-recursive mutex is locked twice *)

(** The formatting state of a stream that the code touches: the field
    width, which every insertion resets, and the sticky adjustment. *)
Record fmtflags : Type := mk_fmt { width : nat; adjust_left : bool }.

Definition fmt_default : fmtflags := mk_fmt 0 false.

Record World : Type := mk_world {
  mem : gmap N Z;          (* counters owned by the application *)
  clock : nat -> Z;        (* the instant returned by the i-th clock read *)
  clock_reads : nat;       (* clock reads so far *)
  mutex : bool;            (* cout_mutex() is held *)
  cout_fmt : fmtflags;
  cerr_fmt : fmtflags;
  trace : list event       (* oldest event first *)
}.

Definition push (e : event) (w : World) : World :=
  mk_world (mem w) (clock w) (clock_reads w) (mutex w)
           (cout_fmt w) (cerr_fmt w) (trace w ++ [e]).

Definition set_mem (m : gmap N Z) (w : World) : World :=
  mk_world m (clock w) (clock_reads w) (mutex w)
           (cout_fmt w) (cerr_fmt w) (trace w).

Definition set_mutex (b : bool) (w : World) : World :=
  mk_world (mem w) (clock w) (clock_reads w) b
           (cout_fmt w) (cerr_fmt w) (trace w).

Definition tick (w : World) : World :=
  mk_world (mem w) (clock w) (S (clock_reads w)) (mutex w)
           (cout_fmt w) (cerr_fmt w) (trace w).

Definition fmt_of (o : stream) (w : World) : fmtflags :=
  match o with Cout => cout_fmt w | Cerr => cerr_fmt w end.

Definition set_fmt (o : stream) (f : fmtflags) (w : World) : World :=
  match o with
  | Cout => mk_world (mem w) (clock w) (clock_reads w) (mutex w)
                     f (cerr_fmt w) (trace w)
  | Cerr => mk_world (mem w) (clock w) (clock_reads w) (mutex w)
                     (cout_fmt w) f (trace w)
  end.

(** ** The monad of the embedding: state and faults *)

Inductive res (A : Type) : Type :=
  | Ok (a : A)
  | Fault (f : fault).
Arguments Ok {A} a.
Arguments Fault {A} f.

Definition M (A : Type) : Type := World -> res (A * World).

Global Instance M_ret : MRet M := fun A a w => Ok (a, w).

Global Instance M_bind : MBind M := fun A B k m w =>
  match m w with
  | Ok (a, w') => k a w'
  | Fault f => Fault f
  end.

Definition raise {A : Type} (f : fault) : M A := fun _ => Fault f.

(** ** Primitive operations *)

(** [Clock::now()]: the next instant of the clock, in its own ticks. *)
Definition Clock_now : M Z := fun w =>
  Ok (clock w (clock_reads w), push EvNow (tick w)).

(** [*p] for [p : uint64_t*].  A cell holds 64 bits: whatever integer the
    map stores there is read modulo [2^64]. *)
Definition load (p : N) : M Z := fun w =>
  if decide (p = 0%N) then Fault NullDeref
  else match mem w !! p with
       | Some v => Ok (wrap64 v, push (EvLoad p) w)
       | None => Fault (BadLoad p)
       end.

(** [std::function<uint64_t()>]: empty, or a callable acting on the
    application's memory. *)
Definition Reader : Type := option (gmap N Z -> Z * gmap N Z).

(** [r()]; the result is a [uint64_t]. *)
Definition call (r : Reader) : M Z := fun w =>
  match r with
  | None => Fault BadCall
  | Some f => let '(v, m') := f (mem w) in
              Ok (wrap64 v, push EvCall (set_mem m' w))
  end.

(** [std::lock_guard<std::mutex> lk(cout_mutex());] followed by [body] up to
    the end of the enclosing block, where the guard unlocks. *)
Definition lock : M unit := fun w =>
  if mutex w then Fault Deadlock else Ok (tt, push EvLock (set_mutex true w)).

Definition unlock : M unit := fun w =>
  Ok (tt, push EvUnlock (set_mutex false w)).

Definition lock_guard {A : Type} (body : M A) : M A :=
  lock;; a ← body; unlock;; mret a.

(** The newline character and the string ["\n"]. *)
Definition nl : string := String (Ascii.ascii_of_nat 10) EmptyString.

Fixpoint spaces (n : nat) : string :=
  match n with
  | O => EmptyString
  | S k => String (Ascii.ascii_of_nat 32) (spaces k)
  end.

(** Padding of one insertion to the pending field width; the fill
    character is the default one, a space. *)
Definition pad (f : fmtflags) (s : string) : string :=
  let n := (width f - String.length s)%nat in
  if adjust_left f then s +:+ spaces n else spaces n +:+ s.

(** [o << s] for a [std::string], and for the text of a number: padded to
    the pending width, which is then reset to [0]. *)
Definition put (o : stream) (s : string) : M unit := fun w =>
  let f := fmt_of o w in
  Ok (tt, set_fmt o (mk_fmt 0 (adjust_left f)) (push (EvWrite o (pad f s)) w)).

(** [o << p] for [p : const char*]. *)
Definition put_cstr (o : stream) (p : option string) : M unit :=
  match p with
  | None => raise NullDeref
  | Some s => put o s
  end.

(** [o << std::left] *)
Definition std_left (o : stream) : M unit := fun w =>
  Ok (tt, set_fmt o (mk_fmt (width (fmt_of o w)) true) w).

(** [o << std::setw(n)] *)
Definition std_setw (o : stream) (n : nat) : M unit := fun w =>
  Ok (tt, set_fmt o (mk_fmt n (adjust_left (fmt_of o w))) w).

(** ** Build configuration and the library functions left abstract *)

Class Build : Type := mk_build {
  (** the macro [CHEETAH_ENABLE_PERF] *)
  CHEETAH_ENABLE_PERF : bool;
  (** [std::chrono::duration<double, std::milli>(d).count()] for a
      difference [d] of two [Clock::time_point]s *)
  duration_ms : Z -> double;
  (** the text [operator<<] produces for a [double] *)
  fmt_double : double -> string;
  (** the text [operator<<] produces for a [uint64_t] *)
  fmt_u64 : Z -> string
}.

Section perf.
Context {B : Build}.

(** [inline double ms_since(const Clock::time_point &start)] *)
Definition ms_since (start : Z) : M double :=
  if CHEETAH_ENABLE_PERF then
    t ← Clock_now; mret (duration_ms (t - start))
  else mret dbl_zero.

(** [inline void print_line(const std::string &s)] *)
Definition print_line (s : string) : M unit :=
  if CHEETAH_ENABLE_PERF then lock_guard (put Cout s)
  else mret tt.

End perf.

(** Tests the code performs on its arguments. *)

(** [if (p)] for a pointer. *)
Definition nonnull (p : N) : bool := negb (p =? 0)%N.

(** [if (r)] for a [std::function]. *)
Definition callable (r : Reader) : bool :=
  match r with Some _ => true | None => false end.

(** [s.empty()] *)
Definition empty (s : string) : bool :=
  match s with EmptyString => true | String _ _ => false end.

(** [p ? p : ""] for [p : const char*]. *)
Definition or_empty (p : option string) : option string :=
  match p with Some s => Some s | None => Some EmptyString end.

(** What the application does between two calls into the instrumentation,
    as far as the I/O scopes can tell: it updates its counters. *)
Definition app (f : gmap N Z -> gmap N Z) : M unit := fun w =>
  Ok (tt, set_mem (f (mem w)) w).

(** One step in the life of an I/O scope between its construction and its
    destruction. *)
Inductive step : Type :=
  | Finish                                (* the owner calls finish() *)
  | App (f : gmap N Z -> gmap N Z).       (* the application runs *)

(** ** IOScope: single counter, through a pointer *)

Module IOScope.

Record t : Type := mk {
  counter_ : N;
  label_ : string;
  begin_ : Z;
  finished_ : bool;
  last_ : IOBytesDelta.t
}.

(** The member initialisers: [begin_ = 0], [finished_ = false],
    [last_{}]. *)
Definition init (counter : N) (label : string) : t :=
  mk counter label 0 false IOBytesDelta.zero.

(** [IOScope() = default;] *)
Definition default : t := init 0%N EmptyString.

Section with_build.
Context {B : Build}.

(** [IOScope(uint64_t *counter, std::string label = {})] *)
Definition ctor (counter : N) (label : string) : M t :=
  let self := init counter label in
  if CHEETAH_ENABLE_PERF then
    if nonnull (counter_ self) then
      v ← load (counter_ self);
      mret (mk (counter_ self) (label_ self) v (finished_ self) (last_ self))
    else mret self
  else mret self.

(** [IOBytesDelta finish()]; the scope is returned along with the result
    since the call updates it. *)
Definition finish (self : t) : M (IOBytesDelta.t * t) :=
  if CHEETAH_ENABLE_PERF then
    if finished_ self then mret (last_ self, self)
    else
      e ← (if nonnull (counter_ self) then load (counter_ self)
           else mret (begin_ self));
      let d := IOBytesDelta.mk (begin_ self) e in
      mret (d, mk (counter_ self) (label_ self) (begin_ self) true d)
  else
    mret (IOBytesDelta.zero,
          mk (counter_ self) (label_ self) (begin_ self) true (last_ self)).

(** [const std::string &label() const] *)
Definition label (self : t) : string := label_ self.

(** [~IOScope()] *)
Definition dtor (self : t) : M unit :=
  if CHEETAH_ENABLE_PERF then
    if negb (finished_ self) && nonnull (counter_ self)
       && negb (empty (label_ self)) then
      e ← load (counter_ self);
      let d := IOBytesDelta.mk (begin_ self) e in
      lock_guard (
        put Cerr "[io] ";;
        put Cerr (label_ self);;
        put Cerr ": ";;
        put Cerr (fmt_u64 (IOBytesDelta.bytes d));;
        put Cerr " B (";;
        put Cerr (fmt_double (IOBytesDelta.mib d));;
        put Cerr (" MiB)" +:+ nl))
    else mret tt
  else mret tt.

(** The steps taken while the scope is alive; the deltas the [finish()]
    calls returned come back in call order. *)
Fixpoint run (self : t) (acts : list step) : M (list IOBytesDelta.t * t) :=
  match acts with
  | [] => mret ([], self)
  | Finish :: rest =>
      '(d, self1) ← finish self;
      '(ds, self2) ← run self1 rest;
      mret (d :: ds, self2)
  | App f :: rest => app f;; run self rest
  end.

(** A whole life: construction, the steps, destruction. *)
Definition lifetime (counter : N) (label : string) (acts : list step)
  : M (list IOBytesDelta.t) :=
  self ← ctor counter label;
  '(ds, self1) ← run self acts;
  dtor self1;;
  mret ds.

End with_build.
End IOScope.

(** ** MultiIOScope: aggregated counter, through an accessor *)

Module MultiIOScope.

Record t : Type := mk {
  reader_ : Reader;
  label_ : string;
  begin_ : Z;
  finished_ : bool;
  last_ : IOBytesDelta.t
}.

Definition init (reader : Reader) (label : string) : t :=
  mk reader label 0 false IOBytesDelta.zero.

(** [MultiIOScope() = default;] *)
Definition default : t := init None EmptyString.

Section with_build.
Context {B : Build}.

(** [MultiIOScope(Reader reader, std::string label = {})] *)
Definition ctor (reader : Reader) (label : string) : M t :=
  let self := init reader label in
  if CHEETAH_ENABLE_PERF then
    if callable (reader_ self) then
      v ← call (reader_ self);
      mret (mk (reader_ self) (label_ self) v (finished_ self) (last_ self))
    else mret self
  else mret self.

(** [IOBytesDelta finish()] *)
Definition finish (self : t) : M (IOBytesDelta.t * t) :=
  if CHEETAH_ENABLE_PERF then
    if finished_ self then mret (last_ self, self)
    else
      e ← (if callable (reader_ self) then call (reader_ self)
           else mret (begin_ self));
      let d := IOBytesDelta.mk (begin_ self) e in
      mret (d, mk (reader_ self) (label_ self) (begin_ self) true d)
  else
    mret (IOBytesDelta.zero,
          mk (reader_ self) (label_ self) (begin_ self) true (last_ self)).

(** [~MultiIOScope()] *)
Definition dtor (self : t) : M unit :=
  if CHEETAH_ENABLE_PERF then
    if negb (finished_ self) && callable (reader_ self)
       && negb (empty (label_ self)) then
      e ← call (reader_ self);
      let d := IOBytesDelta.mk (begin_ self) e in
      lock_guard (
        put Cerr "[io] ";;
        put Cerr (label_ self);;
        put Cerr ": ";;
        put Cerr (fmt_u64 (IOBytesDelta.bytes d));;
        put Cerr " B (";;
        put Cerr (fmt_double (IOBytesDelta.mib d));;
        put Cerr (" MiB)" +:+ nl))
    else mret tt
  else mret tt.

Fixpoint run (self : t) (acts : list step) : M (list IOBytesDelta.t * t) :=
  match acts with
  | [] => mret ([], self)
  | Finish :: rest =>
      '(d, self1) ← finish self;
      '(ds, self2) ← run self1 rest;
      mret (d :: ds, self2)
  | App f :: rest => app f;; run self rest
  end.

Definition lifetime (reader : Reader) (label : string) (acts : list step)
  : M (list IOBytesDelta.t) :=
  self ← ctor reader label;
  '(ds, self1) ← run self acts;
  dtor self1;;
  mret ds.

End with_build.
End MultiIOScope.

(** ** ScopedTimer *)

Module ScopedTimer.

(** [const char *label = nullptr; Clock::time_point t0{};] *)
Record t : Type := mk { label : option string; t0 : Z }.

Section with_build.
Context {B : Build}.

(** [explicit ScopedTimer(const char *lbl)] *)
Definition ctor (lbl : option string) : M t :=
  if CHEETAH_ENABLE_PERF then
    now ← Clock_now; mret (mk lbl now)
  else mret (mk lbl 0).

(** [~ScopedTimer()].  The operands of the chain of [<<] are evaluated from
    left to right, as C++17 has it (the header needs C++17 for its nested
    namespace definition): the clock is read after the label is
    inserted. *)
Definition dtor (self : t) : M unit :=
  if CHEETAH_ENABLE_PERF then
    lock_guard (
      put Cout "  [time] ";;
      std_left Cout;;
      std_setw Cout 28;;
      put_cstr Cout (or_empty (label self));;
      ms ← ms_since (t0 self);
      put Cout (fmt_double ms);;
      put Cout (" ms" +:+ nl))
  else mret tt.

End with_build.
End ScopedTimer.

(** ** StageTimer *)

Module StageTimer.

(** [std::string prefix; const char *name = nullptr;
     Clock::time_point t0{};] *)
Record t : Type := mk { prefix : string; name : option string; t0 : Z }.

Section with_build.
Context {B : Build}.

(** [StageTimer(const char *n, std::string pref = {})] *)
Definition ctor (n : option string) (pref : string) : M t :=
  let self := mk pref n 0 in
  if CHEETAH_ENABLE_PERF then
    now ← Clock_now;
    let self := mk (prefix self) (name self) now in
    lock_guard (
      put Cout nl;;
      put Cout (prefix self);;
      put_cstr Cout (if empty (prefix self) then Some "" else Some " ");;
      put_cstr Cout (or_empty (name self));;
      put Cout nl);;
    mret self
  else mret self.

(** [void done() const] *)
Definition done (self : t) : M unit :=
  if CHEETAH_ENABLE_PERF then
    lock_guard (
      put Cout "  [time] ";;
      std_left Cout;;
      std_setw Cout 28;;
      put Cout "TOTAL";;
      ms ← ms_since (t0 self);
      put Cout (fmt_double ms);;
      put Cout (" ms" +:+ nl))
  else mret tt.

(** The destructor is the implicit one: it destroys the members and does
    nothing else. *)
Definition dtor (self : t) : M unit := mret tt.

(** [done()] called [n] times in a row. *)
Fixpoint done_times (n : nat) (self : t) : M unit :=
  match n with
  | O => mret tt
  | S k => done self;; done_times k self
  end.

(** A whole life: construction, [n] calls of [done()], destruction. *)
Definition lifetime (nm : option string) (pref : string) (n : nat) : M unit :=
  self ← ctor nm pref;
  done_times n self;;
  dtor self.

End with_build.
End StageTimer.

(** ** The calls the header offers, and programs made of them *)

Inductive op : Type :=
  | OpMsSince (start : Z)
  | OpPrintLine (s : string)
  | OpIOCtor (counter : N) (label : string)
  | OpIOFinish (self : IOScope.t)
  | OpIODtor (self : IOScope.t)
  | OpMultiCtor (reader : Reader) (label : string)
  | OpMultiFinish (self : MultiIOScope.t)
  | OpMultiDtor (self : MultiIOScope.t)
  | OpScopedCtor (lbl : option string)
  | OpScopedDtor (self : ScopedTimer.t)
  | OpStageCtor (n : option string) (pref : string)
  | OpStageDone (self : StageTimer.t)
  | OpStageDtor (self : StageTimer.t).

(** Run a computation for its effects. *)
Definition void {A : Type} (m : M A) : M unit := _ ← m; mret tt.

Definition exec {B : Build} (o : op) : M unit :=
  match o with
  | OpMsSince start => void (ms_since start)
  | OpPrintLine s => print_line s
  | OpIOCtor c l => void (IOScope.ctor c l)
  | OpIOFinish self => void (IOScope.finish self)
  | OpIODtor self => IOScope.dtor self
  | OpMultiCtor r l => void (MultiIOScope.ctor r l)
  | OpMultiFinish self => void (MultiIOScope.finish self)
  | OpMultiDtor self => MultiIOScope.dtor self
  | OpScopedCtor lbl => void (ScopedTimer.ctor lbl)
  | OpScopedDtor self => ScopedTimer.dtor self
  | OpStageCtor n pref => void (StageTimer.ctor n pref)
  | OpStageDone self => StageTimer.done self
  | OpStageDtor self => StageTimer.dtor self
  end.

Fixpoint exec_all {B : Build} (os : list op) : M unit :=
  match os with
  | [] => mret tt
  | o :: rest => exec o;; exec_all rest
  end.

(** The stream a call reports on: the I/O scopes write to [std::cerr],
    everything else to [std::cout]. *)
Definition stream_of_op (o : op) : stream :=
  match o with
  | OpIODtor _ | OpMultiDtor _ => Cerr
  | _ => Cout
  end.

(** ** Observations on a trace *)

Definition is_read (e : event) : bool :=
  match e with EvLoad _ | EvCall => true | _ => false end.

(** Reads of the measurement source: counter loads and accessor calls. *)
Fixpoint reads (evs : list event) : nat :=
  match evs with
  | [] => 0
  | e :: rest => ((if is_read e then 1 else 0) + reads rest)%nat
  end.

(** Clock reads. *)
Fixpoint ticks (evs : list event) : nat :=
  match evs with
  | [] => 0
  | EvNow :: rest => S (ticks rest)
  | _ :: rest => ticks rest
  end.

(** The stream insertions, in order. *)
Fixpoint writes (evs : list event) : list (stream * string) :=
  match evs with
  | [] => []
  | EvWrite o s :: rest => (o, s) :: writes rest
  | _ :: rest => writes rest
  end.

(** The text that reached stream [o]. *)
Fixpoint written (o : stream) (evs : list event) : string :=
  match evs with
  | [] => EmptyString
  | EvWrite o' s :: rest =>
      if decide (o' = o) then s +:+ written o rest else written o rest
  | _ :: rest => written o rest
  end.

(** Every insertion happens while the mutex is held; [held] tells whether
    it is held where the trace starts. *)
Fixpoint guarded (held : bool) (evs : list event) : bool :=
  match evs with
  | [] => true
  | EvLock :: rest => guarded true rest
  | EvUnlock :: rest => guarded false rest
  | EvWrite _ _ :: rest => held && guarded held rest
  | _ :: rest => guarded held rest
  end.

(** Whether the mutex is held where the trace ends. *)
Fixpoint held_after (held : bool) (evs : list event) : bool :=
  match evs with
  | [] => held
  | EvLock :: rest => held_after true rest
  | EvUnlock :: rest => held_after false rest
  | _ :: rest => held_after held rest
  end.

(** The memory after the application's steps of a script. *)
Fixpoint mem_after (acts : list step) (m : gmap N Z) : gmap N Z :=
  match acts with
  | [] => m
  | Finish :: rest => mem_after rest m
  | App f :: rest => mem_after rest (f m)
  end.

(** The [finish()] calls of a script. *)
Fixpoint finishes (acts : list step) : nat :=
  match acts with
  | [] => 0
  | Finish :: rest => S (finishes rest)
  | App _ :: rest => finishes rest
  end.

(** The counter at [c] stays allocated across the application's steps:
    the caller's obligation towards a borrowed counter. *)
Definition keeps_counter (c : N) (acts : list step) : Prop :=
  forall f, In (App f) acts ->
    forall m : gmap N Z, is_Some (m !! c) -> is_Some (f m !! c).

(** Left-justification of [s] in a field of at least [n] characters. *)
Definition ljust (n : nat) (s : string) : string :=
  s +:+ spaces (n - String.length s).

(** ** Vocabulary of the statements *)

(** The scope once [finish()] has stored [d]. *)
Definition IOScope_finished (self : IOScope.t) (d : IOBytesDelta.t)
  : IOScope.t :=
  IOScope.mk (IOScope.counter_ self) (IOScope.label_ self)
             (IOScope.begin_ self) true d.

(** The condition under which the destructor reports. *)
Definition IOScope_reports (self : IOScope.t) : bool :=
  negb (IOScope.finished_ self) && nonnull (IOScope.counter_ self)
  && negb (empty (IOScope.label_ self)).

(** The scope once [finish()] has stored [d]. *)
Definition MultiIOScope_finished (self : MultiIOScope.t) (d : IOBytesDelta.t)
  : MultiIOScope.t :=
  MultiIOScope.mk (MultiIOScope.reader_ self) (MultiIOScope.label_ self)
                  (MultiIOScope.begin_ self) true d.

(** The condition under which the destructor reports. *)
Definition MultiIOScope_reports (self : MultiIOScope.t) : bool :=
  negb (MultiIOScope.finished_ self) && callable (MultiIOScope.reader_ self)
  && negb (empty (MultiIOScope.label_ self)).

(** The events of one I/O report for label [l] and delta [d], the first
    insertion being padded by the flags [f] the stream had. *)
Definition io_report {B : Build} (f : fmtflags) (l : string) (d : IOBytesDelta.t)
  : list event :=
  [EvLock;
   EvWrite Cerr (pad f "[io] ");
   EvWrite Cerr l;
   EvWrite Cerr ": ";
   EvWrite Cerr (fmt_u64 (IOBytesDelta.bytes d));
   EvWrite Cerr " B (";
   EvWrite Cerr (fmt_double (IOBytesDelta.mib d));
   EvWrite Cerr (" MiB)" +:+ nl);
   EvUnlock].

(** A value is a normal binary64 number of the magnitude of a byte count:
    zero, or 53 significant digits and an exponent between -52 and 12. *)
Definition normal_count (x : double) : Prop :=
  x = S754_zero false \/
  exists m e, x = S754_finite false m e /\
              Z.pos (digits2_pos m) = 53 /\ -52 <= e <= 12.

(** The milliseconds [ms_since (t0)] returns when called in world [w] of an
    enabled build. *)
Definition elapsed {B : Build} (w : World) (t0 : Z) : double :=
  duration_ms (clock w (clock_reads w) - t0).

(** The events of one timer report: [field] is the text set in the field of
    width 28, [ms] the elapsed time, and [f] the flags [std::cout] had. *)
Definition time_report {B : Build} (f : fmtflags) (field : string)
  (ms : double) : list event :=
  [EvLock;
   EvWrite Cout (pad f "  [time] ");
   EvWrite Cout (ljust 28 field);
   EvNow;
   EvWrite Cout (fmt_double ms);
   EvWrite Cout (" ms" +:+ nl);
   EvUnlock].

(** The text of one timer report as the code produces it. *)
Definition time_line {B : Build} (field : string) (ms : double) : string :=
  "  [time] " +:+ ljust 28 field +:+ fmt_double ms +:+ " ms" +:+ nl.

(** The text of [n] successive totals of a stage timer started at [t0],
    the first of them reading the clock for the [k]-th time. *)
Fixpoint total_lines {B : Build} (clk : nat -> Z) (t0 : Z) (k n : nat)
  : string :=
  match n with
  | O => EmptyString
  | S n' => time_line "TOTAL" (duration_ms (clk k - t0))
            +:+ total_lines clk t0 (S k) n'
  end.

(** The world after one timer report. *)
Definition after_report (w : World) (evs : list event) : World :=
  mk_world (mem w) (clock w) (S (clock_reads w)) false (mk_fmt 0 true)
           (cerr_fmt w) (trace w ++ evs).

(** The events of the header a stage timer prints when constructed. *)
Definition stage_header (f : fmtflags) (pref name : string) : list event :=
  [EvNow;
   EvLock;
   EvWrite Cout (pad f nl);
   EvWrite Cout pref;
   EvWrite Cout (if empty pref then "" else " ");
   EvWrite Cout name;
   EvWrite Cout nl;
   EvUnlock].

(** The documented formats, read to the letter.  Scoped Timer report:
    [  [time] <label left-justified, min width 28> <ms> ms\n]. *)
Definition documented_scoped_line {B : Build} (label : string) (ms : double)
  : string :=
  "  [time] " +:+ ljust 28 label +:+ " " +:+ fmt_double ms +:+ " ms" +:+ nl.

(** Stage Timer total:
    [  [time] TOTAL<padding to width 28>      <ms> ms\n]. *)
Definition documented_total_line {B : Build} (ms : double) : string :=
  "  [time] " +:+ ljust 28 "TOTAL" +:+ "      " +:+ fmt_double ms
  +:+ " ms" +:+ nl.

(** ** Sample inputs *)

(** A stand-in for the text of a [double]: its integer part. *)
Definition sample_fmt_double (d : double) : string :=
  match d with
  | S754_zero _ => "0"
  | S754_finite s m e =>
      (if s then "-" else "") +:+
      pretty (if Z.leb 0 e then Z.pos m * 2 ^ e else Z.pos m / 2 ^ (- e))
  | S754_infinity s => if s then "-inf" else "inf"
  | S754_nan => "nan"
  end.

(** An enabled build on a clock that counts milliseconds. *)
Definition build_on : Build :=
  mk_build true dbl_of_Z sample_fmt_double pretty.

(** The same with instrumentation compiled out. *)
Definition build_off : Build :=
  mk_build false dbl_of_Z sample_fmt_double pretty.

(** Two counters, at addresses [1] and [2]; a clock that reads 5 ms, then
    10 ms, and so on; the mutex free and both streams in their initial
    state. *)
Definition w0 : World :=
  mk_world (<[1%N := 1000]> (<[2%N := 700]> ∅))
           (fun i => 5 * Z.of_nat (S i)) 0 false fmt_default fmt_default [].

(** An accessor summing the two counters. *)
Definition sum_reader : Reader :=
  Some (fun m => (default 0 (m !! 1%N) + default 0 (m !! 2%N), m)).

(** The application adds [n] bytes to the counter at [a]. *)
Definition bump (a : N) (n : Z) : step :=
  App (fun m => <[a := default 0 (m !! a) + n]> m).

(** A label of exactly 28 characters. *)
Definition label28 : string := "abcdefghijklmnopqrstuvwxyzab".

(** A measured region during which the counter at [1] grows by one
    mebibyte, with [finish()] called before and after. *)
Definition sample_script : list step := [Finish; bump 1 1048576; Finish].

(** A labelled scope on the counter at [1] on which [finish()] was not
    called. *)
Definition sample_scope : IOScope.t :=
  IOScope.mk 1%N "io" 1000 false IOBytesDelta.zero.

(** ** Proof automation *)

(** [pad] stays folded under simplification. *)
#[global] Arguments pad : simpl never.

(** Evaluate a sequence of primitives on a world given by its fields,
    innermost first. *)
Ltac run_world :=
  cbv [lock_guard lock unlock put_cstr put std_left std_setw Clock_now raise
       or_empty default mbind M_bind mret M_ret push set_mem set_mutex
       set_fmt tick fmt_of
       mem clock clock_reads mutex cout_fmt cerr_fmt trace width adjust_left
       after_report time_report stage_header elapsed
       ScopedTimer.label ScopedTimer.t0
       StageTimer.prefix StageTimer.name StageTimer.t0].

(** Evaluate a call on a world given by its fields, innermost first. *)
Ltac run_call :=
  cbv [exec void ms_since print_line
       IOScope.ctor IOScope.finish IOScope.dtor IOScope.init
       IOScope.counter_ IOScope.label_ IOScope.begin_ IOScope.finished_
       IOScope.last_
       MultiIOScope.ctor MultiIOScope.finish MultiIOScope.dtor
       MultiIOScope.init
       MultiIOScope.reader_ MultiIOScope.label_ MultiIOScope.begin_
       MultiIOScope.finished_ MultiIOScope.last_
       ScopedTimer.ctor ScopedTimer.dtor StageTimer.ctor StageTimer.done
       StageTimer.dtor load call callable negb andb];
  run_world.

(** Split on the innermost test the evaluation is stuck on. *)
Ltac split_test :=
  match goal with
  | |- context [match ?x with _ => _ end] =>
      lazymatch x with
      | context [match _ with _ => _ end] => fail
      | _ => destruct x eqn:?
      end
  end.

(** Exhibit the events a call appended to the trace and check them. *)
Ltac trace_shape :=
  rewrite <- ?app_assoc;
  first [ exists []; split; [symmetry; apply app_nil_r|]
        | eexists; split; [reflexivity|] ];
  cbn; repeat split; repeat constructor.

(** ** Further vocabulary *)

(** Acquisitions of the mutex. *)
Fixpoint locks (evs : list event) : nat :=
  match evs with
  | [] => 0
  | EvLock :: rest => S (locks rest)
  | _ :: rest => locks rest
  end.

(** The events that happen while the mutex is held; [held] tells whether it
    is held where the trace starts. *)
Fixpoint inside (held : bool) (evs : list event) : list event :=
  match evs with
  | [] => []
  | EvLock :: rest => inside true rest
  | EvUnlock :: rest => inside false rest
  | e :: rest => if held then e :: inside held rest else inside held rest
  end.

(** The text of one I/O report as the destructors produce it. *)
Definition io_line {B : Build} (l : string) (d : IOBytesDelta.t) : string :=
  "[io] " +:+ l +:+ ": " +:+ fmt_u64 (IOBytesDelta.bytes d) +:+ " B ("
  +:+ fmt_double (IOBytesDelta.mib d) +:+ " MiB)" +:+ nl.

(** The text of the header a stage timer prints when constructed. *)
Definition header_text (pref name : string) : string :=
  nl +:+ pref +:+ (if empty pref then "" else " ") +:+ name +:+ nl.

(** The calls made on an I/O scope. *)
Definition io_op (o : op) : bool :=
  match o with
  | OpIOCtor _ _ | OpIOFinish _ | OpIODtor _
  | OpMultiCtor _ _ | OpMultiFinish _ | OpMultiDtor _ => true
  | _ => false
  end.

(** The calls that may invoke an accessor supplied by the application. *)
Definition multi_op (o : op) : bool :=
  match o with
  | OpMultiCtor _ _ | OpMultiFinish _ | OpMultiDtor _ => true
  | _ => false
  end.

(** The calls that insert [std::left] into [std::cout]. *)
Definition sets_left (o : op) : bool :=
  match o with
  | OpScopedDtor _ | OpStageDone _ => true
  | _ => false
  end.

(** The calls whose code holds no [lock_guard]. *)
Definition lock_free (o : op) : bool :=
  match o with
  | OpMsSince _ | OpIOCtor _ _ | OpIOFinish _
  | OpMultiCtor _ _ | OpMultiFinish _
  | OpScopedCtor _ | OpStageDtor _ => true
  | _ => false
  end.

(** Two scoped timers, the second declared inside the region of the
    first: the inner one is destroyed first. *)
Definition nested_timers {B : Build} (outer inner : option string) : M unit :=
  a ← ScopedTimer.ctor outer;
  b ← ScopedTimer.ctor inner;
  ScopedTimer.dtor b;;
  ScopedTimer.dtor a.

(** The lines of a list, one after the other. *)
Fixpoint concat_lines (ss : list string) : string :=
  match ss with
  | [] => EmptyString
  | s :: rest => s +:+ concat_lines rest
  end.

(** The application frees the counter at [a]. *)
Definition free (a : N) : step := App (fun m => delete a m).

(** The sum of the two sample counters, as a callable. *)
Definition sum_counters (m : gmap N Z) : Z * gmap N Z :=
  (default 0 (m !! 1%N) + default 0 (m !! 2%N), m).

(** A labelled aggregated scope on which [finish()] was not called. *)
Definition sample_multi_scope : MultiIOScope.t :=
  MultiIOScope.mk (Some sum_counters) "sum" 1200 false IOBytesDelta.zero.

(** An accessor that reads the one counter at [c]. *)
Definition read_counter (c : N) (m : gmap N Z) : Z * gmap N Z :=
  (default 0 (m !! c), m).

(** The aggregated scope in the state of a single-counter scope, its
    accessor reading that scope's counter. *)
Definition as_multi (a : IOScope.t) : MultiIOScope.t :=
  MultiIOScope.mk (Some (read_counter (IOScope.counter_ a)))
                  (IOScope.label_ a) (IOScope.begin_ a)
                  (IOScope.finished_ a) (IOScope.last_ a).

(** A counter read seen as an accessor call. *)
Definition as_call (e : event) : event :=
  match e with EvLoad _ => EvCall | _ => e end.

(** A world with the counter reads of its trace seen as accessor calls. *)
Definition with_calls (w : World) : World :=
  mk_world (mem w) (clock w) (clock_reads w) (mutex w)
           (cout_fmt w) (cerr_fmt w) (map as_call (trace w)).

(** The number of insertions made into stream [o]. *)
Fixpoint inserts (o : stream) (evs : list event) : nat :=
  match evs with
  | [] => 0
  | EvWrite o' _ :: rest =>
      ((if decide (o' = o) then 1 else 0) + inserts o rest)%nat
  | _ :: rest => inserts o rest
  end.

(** The accessor a call may invoke: the one the aggregated scope holds, or
    the one its constructor is given. *)
Definition accessor (o : op) : Reader :=
  match o with
  | OpMultiCtor r _ => r
  | OpMultiFinish self | OpMultiDtor self => MultiIOScope.reader_ self
  | _ => None
  end.

(** The sample world entered while the application has a field width
    pending on each stream: [std::setw(20)] on [std::cout] and
    [std::setw(7)] on [std::cerr]. *)
Definition w_pending : World :=
  mk_world (mem w0) (clock w0) (clock_reads w0) false
           (mk_fmt 20 false) (mk_fmt 7 false) [].

(** An accessor that returns the counter at [1] and counts its own
    invocations in the cell at [3]. *)
Definition counting_reader (m : gmap N Z) : Z * gmap N Z :=
  (default 0 (m !! 1%N), <[3%N := default 0 (m !! 3%N) + 1]> m).

(** A labelled aggregated scope over [counting_reader] on which [finish()]
    was not called. *)
Definition sample_counting_scope : MultiIOScope.t :=
  MultiIOScope.mk (Some counting_reader) "cnt" 1000 false IOBytesDelta.zero.

(** * Properties *)

(** ** Reasoning in the monad *)

Lemma bind_Ok {A C : Type} (m : M A) (k : A -> M C) w a w1 :
  m w = Ok (a, w1) -> (m ≫= k) w = k a w1.
Proof. intros E. unfold mbind, M_bind. rewrite E. reflexivity. Qed.

Lemma bind_inv {A C : Type} (m : M A) (k : A -> M C) w c w2 :
  (m ≫= k) w = Ok (c, w2) ->
  exists a w1, m w = Ok (a, w1) /\ k a w1 = Ok (c, w2).
Proof.
  unfold mbind, M_bind. destruct (m w) as [[a w1]|f]; [|discriminate].
  intros E. exists a, w1. split; [reflexivity | exact E].
Qed.

(** ** The disabled build *)

Section disabled.
Context {B : Build}.
Hypothesis off : CHEETAH_ENABLE_PERF = false.

Lemma ms_since_off start w : ms_since start w = Ok (dbl_zero, w).
Proof. unfold ms_since. rewrite off. reflexivity. Qed.

Lemma exec_off o w : exec o w = Ok (tt, w).
Proof.
  destruct o; unfold exec, void, ms_since, print_line,
    IOScope.ctor, IOScope.finish, IOScope.dtor,
    MultiIOScope.ctor, MultiIOScope.finish, MultiIOScope.dtor,
    ScopedTimer.ctor, ScopedTimer.dtor,
    StageTimer.ctor, StageTimer.done, StageTimer.dtor;
  rewrite ?off; reflexivity.
Qed.

Lemma exec_all_off os w : exec_all os w = Ok (tt, w).
Proof.
  induction os as [|o os IH]; [reflexivity|].
  cbn [exec_all]. erewrite bind_Ok by apply exec_off. apply IH.
Qed.

Lemma IOScope_finish_off self w :
  IOScope.finish self w =
  Ok ((IOBytesDelta.zero,
       IOScope.mk (IOScope.counter_ self) (IOScope.label_ self)
                  (IOScope.begin_ self) true (IOScope.last_ self)), w).
Proof. unfold IOScope.finish. rewrite off. reflexivity. Qed.

Lemma MultiIOScope_finish_off self w :
  MultiIOScope.finish self w =
  Ok ((IOBytesDelta.zero,
       MultiIOScope.mk (MultiIOScope.reader_ self) (MultiIOScope.label_ self)
                  (MultiIOScope.begin_ self) true (MultiIOScope.last_ self)), w).
Proof. unfold MultiIOScope.finish. rewrite off. reflexivity. Qed.

Lemma construct_destroy_off w :
  (forall c l, IOScope.lifetime c l [] w = Ok ([], w)) /\
  (forall r l, MultiIOScope.lifetime r l [] w = Ok ([], w)) /\
  (forall lbl, (self ← ScopedTimer.ctor lbl; ScopedTimer.dtor self) w
               = Ok (tt, w)) /\
  (forall n pref, StageTimer.lifetime n pref 0 w = Ok (tt, w)).
Proof.
  repeat split; intros;
  unfold IOScope.lifetime, IOScope.ctor, IOScope.dtor,
    MultiIOScope.lifetime, MultiIOScope.ctor, MultiIOScope.dtor,
    ScopedTimer.ctor, ScopedTimer.dtor,
    StageTimer.lifetime, StageTimer.ctor, StageTimer.dtor;
  rewrite ?off; reflexivity.
Qed.

End disabled.

(** ** Observations, compositionally *)

Lemma reads_app a b : reads (a ++ b) = (reads a + reads b)%nat.
Proof. induction a as [|e a IH]; [reflexivity|].
  simpl. rewrite IH. lia.
Qed.

Lemma ticks_app a b : ticks (a ++ b) = (ticks a + ticks b)%nat.
Proof.
  induction a as [|e a IH]; [reflexivity|].
  destruct e; simpl; rewrite IH; reflexivity.
Qed.

Lemma writes_app a b : writes (a ++ b) = writes a ++ writes b.
Proof.
  induction a as [|e a IH]; [reflexivity|].
  destruct e; simpl; rewrite ?IH; reflexivity.
Qed.

Lemma guarded_app h a b :
  guarded h (a ++ b) = guarded h a && guarded (held_after h a) b.
Proof.
  revert h. induction a as [|e a IH]; intros h; [reflexivity|].
  destruct e; simpl; rewrite ?IH; try reflexivity.
  apply andb_assoc.
Qed.

Lemma held_after_app h a b :
  held_after h (a ++ b) = held_after (held_after h a) b.
Proof.
  revert h. induction a as [|e a IH]; intros h; [reflexivity|].
  destruct e; simpl; apply IH.
Qed.

Lemma set_mem_id w : set_mem (mem w) w = w.
Proof. destruct w; reflexivity. Qed.

Lemma nonnull_true p : p <> 0%N -> nonnull p = true.
Proof. intros H. unfold nonnull. apply negb_true_iff, N.eqb_neq, H. Qed.

Lemma nonnull_false_iff p : nonnull p = false <-> p = 0%N.
Proof. unfold nonnull. rewrite negb_false_iff. apply N.eqb_eq. Qed.

Lemma load_Ok p v w :
  p <> 0%N -> mem w !! p = Some v ->
  load p w = Ok (wrap64 v, push (EvLoad p) w).
Proof.
  intros Hp Hv. unfold load. rewrite decide_False by exact Hp.
  rewrite Hv. reflexivity.
Qed.

Lemma append_cons c s t : String c s +:+ t = String c (s +:+ t).
Proof. reflexivity. Qed.

Lemma append_empty_r s : s +:+ EmptyString = s.
Proof.
  induction s as [|c s IH]; [reflexivity|].
  rewrite append_cons, IH. reflexivity.
Qed.

Lemma pad_width0 l s : pad (mk_fmt 0 l) s = s.
Proof. unfold pad. destruct l; cbn; [apply append_empty_r | reflexivity]. Qed.

Lemma pad_no_width f s : width f = 0%nat -> pad f s = s.
Proof. destruct f as [n l]. cbn. intros ->. apply pad_width0. Qed.

Lemma wrap64_range z : is_u64 (wrap64 z).
Proof. apply Z.mod_pos_bound. reflexivity. Qed.

(** ** The enabled build: the single-counter scope *)

Section enabled_io.
Context {B : Build}.
Hypothesis on : CHEETAH_ENABLE_PERF = true.

Lemma IOScope_ctor_null l w :
  IOScope.ctor 0%N l w = Ok (IOScope.init 0%N l, w).
Proof. unfold IOScope.ctor. rewrite on. reflexivity. Qed.

Lemma IOScope_ctor_valid c l v w :
  c <> 0%N -> mem w !! c = Some v ->
  IOScope.ctor c l w
  = Ok (IOScope.mk c l (wrap64 v) false IOBytesDelta.zero, push (EvLoad c) w).
Proof.
  intros Hc Hv. unfold IOScope.ctor. rewrite on. cbn [IOScope.init IOScope.counter_].
  rewrite nonnull_true by exact Hc.
  erewrite bind_Ok by (apply load_Ok; eassumption). reflexivity.
Qed.

Lemma IOScope_finish_again self w :
  IOScope.finished_ self = true ->
  IOScope.finish self w = Ok ((IOScope.last_ self, self), w).
Proof. intros F. unfold IOScope.finish. rewrite on, F. reflexivity. Qed.

Lemma IOScope_finish_first_null self w :
  IOScope.finished_ self = false -> IOScope.counter_ self = 0%N ->
  let d := IOBytesDelta.mk (IOScope.begin_ self) (IOScope.begin_ self) in
  IOScope.finish self w = Ok ((d, IOScope_finished self d), w).
Proof.
  intros F C. unfold IOScope.finish. rewrite on, F.
  destruct self; cbn in *; subst; reflexivity.
Qed.

Lemma IOScope_finish_first_valid self v w :
  IOScope.finished_ self = false -> IOScope.counter_ self <> 0%N ->
  mem w !! IOScope.counter_ self = Some v ->
  let d := IOBytesDelta.mk (IOScope.begin_ self) (wrap64 v) in
  IOScope.finish self w
  = Ok ((d, IOScope_finished self d), push (EvLoad (IOScope.counter_ self)) w).
Proof.
  intros F C Hv. unfold IOScope.finish. rewrite on, F.
  rewrite nonnull_true by exact C.
  erewrite bind_Ok by (apply load_Ok; eassumption). reflexivity.
Qed.

Lemma IOScope_dtor_silent self w :
  IOScope_reports self = false -> IOScope.dtor self w = Ok (tt, w).
Proof.
  intros H. unfold IOScope.dtor. rewrite on.
  unfold IOScope_reports in H. rewrite H. reflexivity.
Qed.

Lemma IOScope_dtor_reports self v w :
  IOScope_reports self = true ->
  mem w !! IOScope.counter_ self = Some v -> mutex w = false ->
  exists w',
    IOScope.dtor self w = Ok (tt, w') /\
    trace w' = trace w ++
      EvLoad (IOScope.counter_ self) ::
      io_report (cerr_fmt w) (IOScope.label_ self)
                (IOBytesDelta.mk (IOScope.begin_ self) (wrap64 v)) /\
    mutex w' = false /\ mem w' = mem w.
Proof.
  intros H Hv Hm. unfold IOScope.dtor. rewrite on.
  pose proof H as H'. unfold IOScope_reports in H'. rewrite H'.
  apply andb_true_iff in H' as [H' _]. apply andb_true_iff in H' as [_ Hc].
  assert (IOScope.counter_ self <> 0%N) as Hc'.
  { intros E. apply nonnull_false_iff in E. congruence. }
  erewrite bind_Ok by (apply load_Ok; eassumption).
  unfold lock_guard, lock, unlock, put, mbind, M_bind, mret, M_ret.
  cbn. rewrite Hm. cbn. eexists. split; [reflexivity|].
  cbn. rewrite <- !app_assoc, !pad_width0. cbn. auto.
Qed.

Lemma app_Ok f w : app f w = Ok (tt, set_mem (f (mem w)) w).
Proof. reflexivity. Qed.

Lemma keeps_counter_tail c a acts :
  keeps_counter c (a :: acts) -> keeps_counter c acts.
Proof. intros K f Hf. apply K. right. exact Hf. Qed.

Lemma keeps_counter_mem_after c acts m :
  keeps_counter c acts -> is_Some (m !! c) -> is_Some (mem_after acts m !! c).
Proof.
  revert m. induction acts as [|[|f] acts IH]; intros m K Hm; cbn.
  - exact Hm.
  - apply IH; [eapply keeps_counter_tail; eassumption | exact Hm].
  - apply IH; [eapply keeps_counter_tail; eassumption |].
    apply K; [left; reflexivity | exact Hm].
Qed.

Lemma IOScope_run_finished self acts w :
  IOScope.finished_ self = true ->
  IOScope.run self acts w
  = Ok ((replicate (finishes acts) (IOScope.last_ self), self),
        set_mem (mem_after acts (mem w)) w).
Proof.
  intros F. revert w. induction acts as [|[|f] acts IH]; intros w.
  - cbn. rewrite set_mem_id. reflexivity.
  - cbn [IOScope.run finishes mem_after].
    erewrite bind_Ok by (apply IOScope_finish_again; exact F).
    cbn beta iota. erewrite bind_Ok by apply IH. reflexivity.
  - cbn [IOScope.run finishes mem_after].
    erewrite bind_Ok by apply app_Ok. rewrite IH. reflexivity.
Qed.

(** What running a script does to a scope that is not finished yet: either
    the script has no [finish()] and nothing happens, or the first
    [finish()] reads the counter once and every call returns its delta. *)
Lemma IOScope_run_unfinished self acts w :
  IOScope.finished_ self = false ->
  IOScope.counter_ self = 0%N \/
    (is_Some (mem w !! IOScope.counter_ self) /\
     keeps_counter (IOScope.counter_ self) acts) ->
  exists ds self' w' evs,
    IOScope.run self acts w = Ok ((ds, self'), w') /\
    mem w' = mem_after acts (mem w) /\
    trace w' = trace w ++ evs /\
    mutex w' = mutex w /\ cerr_fmt w' = cerr_fmt w /\
    ((finishes acts = 0%nat /\ ds = [] /\ self' = self /\ evs = []) \/
     (exists d, (0 < finishes acts)%nat /\
        ds = replicate (finishes acts) d /\
        self' = IOScope_finished self d /\
        IOBytesDelta.begin d = IOScope.begin_ self /\
        (IOScope.counter_ self = 0%N ->
           IOBytesDelta.end_ d = IOScope.begin_ self /\ evs = []) /\
        (IOScope.counter_ self <> 0%N ->
           evs = [EvLoad (IOScope.counter_ self)]))).
Proof.
  intros F. revert w. induction acts as [|[|f] acts IH]; intros w V.
  - exists [], self, w, []. cbn. rewrite app_nil_r. auto 10.
  - cbn [IOScope.run finishes mem_after].
    destruct (decide (IOScope.counter_ self = 0%N)) as [C|C].
    + erewrite bind_Ok by (apply IOScope_finish_first_null; assumption).
      cbn beta iota.
      erewrite bind_Ok by (apply IOScope_run_finished; reflexivity).
      cbn beta iota. do 4 eexists. split; [reflexivity|].
      cbn. rewrite app_nil_r. repeat split; try reflexivity.
      right. eexists. repeat split; try reflexivity; try lia.
    + destruct V as [V|[[v Hv] K]]; [contradiction|].
      erewrite bind_Ok by (eapply IOScope_finish_first_valid; eassumption).
      cbn beta iota.
      erewrite bind_Ok by (apply IOScope_run_finished; reflexivity).
      cbn beta iota. do 4 eexists. split; [reflexivity|].
      cbn. repeat split; try reflexivity.
      right. eexists. repeat split; try reflexivity; try lia; contradiction.
  - cbn [IOScope.run finishes mem_after].
    erewrite bind_Ok by apply app_Ok.
    destruct (IH (set_mem (f (mem w)) w)) as (ds & self' & w' & evs & E & R).
    { destruct V as [V|[V K]]; [left; exact V | right; split].
      - cbn. apply K; [left; reflexivity | exact V].
      - eapply keeps_counter_tail; eassumption. }
    exists ds, self', w', evs. split; [exact E | exact R].
Qed.

Lemma IOScope_reports_finished self d :
  IOScope_reports (IOScope_finished self d) = false.
Proof. reflexivity. Qed.

(** A whole life of a single-counter scope. *)
Lemma IOScope_lifetime_spec c l acts w :
  mutex w = false ->
  c = 0%N \/ (is_Some (mem w !! c) /\ keeps_counter c acts) ->
  exists ds w' evs,
    IOScope.lifetime c l acts w = Ok (ds, w') /\
    trace w' = trace w ++ evs /\
    (reads evs <= 2)%nat /\
    (exists d, ds = replicate (finishes acts) d /\
               (c = 0%N -> d = IOBytesDelta.zero)) /\
    (c = 0%N -> evs = []) /\
    ((0 < finishes acts)%nat \/ l = EmptyString -> writes evs = []) /\
    (finishes acts = 0%nat -> c <> 0%N -> l <> EmptyString ->
       exists b e, evs = EvLoad c :: EvLoad c ::
                         io_report (cerr_fmt w) l (IOBytesDelta.mk b e)).
Proof.
  intros Hm V. unfold IOScope.lifetime.
  destruct (decide (c = 0%N)) as [C|C].
  - subst c. erewrite bind_Ok by apply IOScope_ctor_null.
    destruct (IOScope_run_unfinished (IOScope.init 0%N l) acts w)
      as (ds & self' & w' & evs & E & _ & T & _ & _ & R);
      [reflexivity | left; reflexivity |].
    erewrite bind_Ok by exact E. cbn beta iota.
    assert (IOScope_reports self' = false) as S.
    { destruct R as [(_ & _ & -> & _)|(d & _ & _ & -> & _)]; reflexivity. }
    erewrite bind_Ok by (apply IOScope_dtor_silent; exact S).
    exists ds, w', evs. split; [reflexivity|].
    assert (evs = []) as ->.
    { destruct R as [(_ & _ & _ & ->)|(d & _ & _ & _ & _ & R & _)];
        [reflexivity | apply R; reflexivity]. }
    split; [exact T|]. split; [cbn; lia|]. split.
    { destruct R as [(N & -> & _)|(d & _ & -> & _ & Bd & R & _)].
      - exists IOBytesDelta.zero. rewrite N. split; reflexivity.
      - exists d. split; [reflexivity|]. intros _.
        destruct (R eq_refl) as [R' _]. destruct d as [b e]. cbn in *.
        subst. reflexivity. }
    split; [reflexivity|]. split; [reflexivity|]. intros _ H. contradiction.
  - destruct V as [V|[[v Hv] K]]; [contradiction|].
    erewrite bind_Ok by (apply IOScope_ctor_valid; eassumption).
    set (self := IOScope.mk c l (wrap64 v) false IOBytesDelta.zero).
    destruct (IOScope_run_unfinished self acts (push (EvLoad c) w))
      as (ds & self' & w' & evs & E & Mw & T & Mx & Fm & R);
      [reflexivity | right; split; [exists v; exact Hv | exact K] |].
    erewrite bind_Ok by exact E. cbn beta iota.
    destruct R as [(N & -> & -> & ->)|(d & N & -> & -> & _ & _ & R)].
    + (* finish() was never called *)
      destruct (decide (l = EmptyString)) as [L|L].
      * erewrite bind_Ok
          by (apply IOScope_dtor_silent; subst l; unfold IOScope_reports;
              cbn; rewrite nonnull_true by exact C; reflexivity).
        exists [], w', [EvLoad c]. split; [reflexivity|].
        rewrite T, app_nil_r. cbn. split; [reflexivity|].
        split; [lia|]. split; [exists IOBytesDelta.zero; rewrite N; split;
                               [reflexivity | intros; contradiction]|].
        split; [intros; contradiction|]. split; [reflexivity|].
        intros; contradiction.
      * destruct (keeps_counter_mem_after c acts (mem w) K) as [v' Hv'];
          [exists v; exact Hv|].
        destruct (IOScope_dtor_reports self v' w') as (w2 & D & T2 & _).
        { unfold IOScope_reports, self. cbn.
          rewrite nonnull_true by exact C.
          destruct l; [contradiction | reflexivity]. }
        { rewrite Mw. exact Hv'. }
        { rewrite Mx. exact Hm. }
        erewrite bind_Ok by exact D.
        eexists [], w2, _. split; [reflexivity|].
        rewrite T2, T, app_nil_r. cbn. rewrite <- app_assoc. cbn.
        split; [reflexivity|]. split; [unfold io_report; cbn; lia|].
        split; [exists IOBytesDelta.zero; rewrite N; split;
                [reflexivity | intros; contradiction]|].
        split; [intros; contradiction|].
        split; [intros [H|H]; [lia | contradiction]|].
        intros _ _ _. rewrite Fm. cbn. eauto.
    + (* finish() was called *)
      erewrite bind_Ok
        by (apply IOScope_dtor_silent; apply IOScope_reports_finished).
      rewrite (R C) in T.
      eexists _, w', _. split; [reflexivity|].
      rewrite T. cbn. rewrite <- app_assoc. cbn.
      split; [reflexivity|]. split; [cbn; lia|].
      split; [exists d; split; [reflexivity | intros; contradiction]|].
      split; [intros; contradiction|]. split; [reflexivity|].
      intros H; lia.
Qed.

End enabled_io.

(** ** The enabled build: the aggregated scope *)

Section enabled_multi.
Context {B : Build}.
Hypothesis on : CHEETAH_ENABLE_PERF = true.

Lemma call_Ok f w :
  call (Some f) w
  = Ok (wrap64 (f (mem w)).1, push EvCall (set_mem (f (mem w)).2 w)).
Proof. unfold call. destruct (f (mem w)) as [v m']. reflexivity. Qed.

Lemma MultiIOScope_ctor_none l w :
  MultiIOScope.ctor None l w = Ok (MultiIOScope.init None l, w).
Proof. unfold MultiIOScope.ctor. rewrite on. reflexivity. Qed.

Lemma MultiIOScope_ctor_some f l w :
  MultiIOScope.ctor (Some f) l w
  = Ok (MultiIOScope.mk (Some f) l (wrap64 (f (mem w)).1) false
                        IOBytesDelta.zero,
        push EvCall (set_mem (f (mem w)).2 w)).
Proof.
  unfold MultiIOScope.ctor. rewrite on.
  cbn [MultiIOScope.init MultiIOScope.reader_ callable].
  erewrite bind_Ok by apply call_Ok. reflexivity.
Qed.

Lemma MultiIOScope_finish_again self w :
  MultiIOScope.finished_ self = true ->
  MultiIOScope.finish self w = Ok ((MultiIOScope.last_ self, self), w).
Proof. intros F. unfold MultiIOScope.finish. rewrite on, F. reflexivity. Qed.

Lemma MultiIOScope_finish_first_none self w :
  MultiIOScope.finished_ self = false -> MultiIOScope.reader_ self = None ->
  let d := IOBytesDelta.mk (MultiIOScope.begin_ self)
                           (MultiIOScope.begin_ self) in
  MultiIOScope.finish self w = Ok ((d, MultiIOScope_finished self d), w).
Proof.
  intros F C. unfold MultiIOScope.finish. rewrite on, F.
  destruct self; cbn in *; subst; reflexivity.
Qed.

Lemma MultiIOScope_finish_first_some self f w :
  MultiIOScope.finished_ self = false ->
  MultiIOScope.reader_ self = Some f ->
  let d := IOBytesDelta.mk (MultiIOScope.begin_ self)
                           (wrap64 (f (mem w)).1) in
  MultiIOScope.finish self w
  = Ok ((d, MultiIOScope_finished self d),
        push EvCall (set_mem (f (mem w)).2 w)).
Proof.
  intros F C. unfold MultiIOScope.finish. rewrite on, F.
  destruct self as [r l b fin la]; cbn in *; subst.
  erewrite bind_Ok by apply call_Ok. reflexivity.
Qed.

Lemma MultiIOScope_dtor_silent self w :
  MultiIOScope_reports self = false -> MultiIOScope.dtor self w = Ok (tt, w).
Proof.
  intros H. unfold MultiIOScope.dtor. rewrite on.
  unfold MultiIOScope_reports in H. rewrite H. reflexivity.
Qed.

Lemma MultiIOScope_dtor_reports self f w :
  MultiIOScope_reports self = true ->
  MultiIOScope.reader_ self = Some f -> mutex w = false ->
  exists w',
    MultiIOScope.dtor self w = Ok (tt, w') /\
    trace w' = trace w ++
      EvCall ::
      io_report (cerr_fmt w) (MultiIOScope.label_ self)
                (IOBytesDelta.mk (MultiIOScope.begin_ self)
                                 (wrap64 (f (mem w)).1)) /\
    mutex w' = false.
Proof.
  intros H Hf Hm. unfold MultiIOScope.dtor. rewrite on.
  pose proof H as H'. unfold MultiIOScope_reports in H'. rewrite H', Hf.
  erewrite bind_Ok by apply call_Ok.
  unfold lock_guard, lock, unlock, put, mbind, M_bind, mret, M_ret.
  cbn. rewrite Hm. cbn. eexists. split; [reflexivity|].
  cbn. rewrite <- !app_assoc, !pad_width0. cbn. auto.
Qed.

Lemma MultiIOScope_run_finished self acts w :
  MultiIOScope.finished_ self = true ->
  MultiIOScope.run self acts w
  = Ok ((replicate (finishes acts) (MultiIOScope.last_ self), self),
        set_mem (mem_after acts (mem w)) w).
Proof.
  intros F. revert w. induction acts as [|[|f] acts IH]; intros w.
  - cbn. rewrite set_mem_id. reflexivity.
  - cbn [MultiIOScope.run finishes mem_after].
    erewrite bind_Ok by (apply MultiIOScope_finish_again; exact F).
    cbn beta iota. erewrite bind_Ok by apply IH. reflexivity.
  - cbn [MultiIOScope.run finishes mem_after].
    erewrite bind_Ok by apply app_Ok. rewrite IH. reflexivity.
Qed.

Lemma MultiIOScope_run_unfinished self acts w :
  MultiIOScope.finished_ self = false ->
  exists ds self' w' evs,
    MultiIOScope.run self acts w = Ok ((ds, self'), w') /\
    trace w' = trace w ++ evs /\
    mutex w' = mutex w /\ cerr_fmt w' = cerr_fmt w /\
    ((finishes acts = 0%nat /\ ds = [] /\ self' = self /\ evs = []) \/
     (exists d, (0 < finishes acts)%nat /\
        ds = replicate (finishes acts) d /\
        self' = MultiIOScope_finished self d /\
        IOBytesDelta.begin d = MultiIOScope.begin_ self /\
        (MultiIOScope.reader_ self = None ->
           IOBytesDelta.end_ d = MultiIOScope.begin_ self /\ evs = []) /\
        (MultiIOScope.reader_ self <> None -> evs = [EvCall]))).
Proof.
  intros F. revert w. induction acts as [|[|g] acts IH]; intros w.
  - exists [], self, w, []. cbn. rewrite app_nil_r. auto 10.
  - cbn [MultiIOScope.run finishes mem_after].
    destruct (MultiIOScope.reader_ self) as [f|] eqn:C.
    + erewrite bind_Ok
        by (eapply MultiIOScope_finish_first_some; eassumption).
      cbn beta iota.
      erewrite bind_Ok by (apply MultiIOScope_run_finished; reflexivity).
      cbn beta iota. do 4 eexists. split; [reflexivity|].
      cbn. repeat split; try reflexivity.
      right. eexists. repeat split; try reflexivity; try lia; discriminate.
    + erewrite bind_Ok
        by (apply MultiIOScope_finish_first_none; assumption).
      cbn beta iota.
      erewrite bind_Ok by (apply MultiIOScope_run_finished; reflexivity).
      cbn beta iota. do 4 eexists. split; [reflexivity|].
      cbn. rewrite app_nil_r. repeat split; try reflexivity.
      right. eexists. repeat split; try reflexivity; try lia.
      intros H; contradiction.
  - cbn [MultiIOScope.run finishes mem_after].
    erewrite bind_Ok by apply app_Ok.
    destruct (IH (set_mem (g (mem w)) w)) as (ds & self' & w' & evs & E & R).
    exists ds, self', w', evs. split; [exact E | exact R].
Qed.

Lemma MultiIOScope_reports_finished self d :
  MultiIOScope_reports (MultiIOScope_finished self d) = false.
Proof. reflexivity. Qed.

(** A whole life of an aggregated scope. *)
Lemma MultiIOScope_lifetime_spec r l acts w :
  mutex w = false ->
  exists ds w' evs,
    MultiIOScope.lifetime r l acts w = Ok (ds, w') /\
    trace w' = trace w ++ evs /\
    (reads evs <= 2)%nat /\
    (exists d, ds = replicate (finishes acts) d /\
               (r = None -> d = IOBytesDelta.zero)) /\
    (r = None -> evs = []) /\
    ((0 < finishes acts)%nat \/ l = EmptyString -> writes evs = []) /\
    (finishes acts = 0%nat -> r <> None -> l <> EmptyString ->
       exists f0 b e, evs = EvCall :: EvCall ::
                         io_report f0 l (IOBytesDelta.mk b e)).
Proof.
  intros Hm. unfold MultiIOScope.lifetime.
  destruct r as [f|].
  - erewrite bind_Ok by apply MultiIOScope_ctor_some.
    set (w1 := push EvCall (set_mem (f (mem w)).2 w)).
    set (self := MultiIOScope.mk (Some f) l (wrap64 (f (mem w)).1) false
                                 IOBytesDelta.zero).
    destruct (MultiIOScope_run_unfinished self acts w1)
      as (ds & self' & w' & evs & E & T & Mx & Fm & R); [reflexivity|].
    erewrite bind_Ok by exact E. cbn beta iota.
    destruct R as [(N & -> & -> & ->)|(d & N & -> & -> & _ & _ & R)].
    + destruct (decide (l = EmptyString)) as [L|L].
      * erewrite bind_Ok
          by (apply MultiIOScope_dtor_silent; subst l; reflexivity).
        exists [], w', [EvCall]. split; [reflexivity|].
        rewrite T, app_nil_r. cbn. split; [reflexivity|].
        split; [lia|]. split; [exists IOBytesDelta.zero; rewrite N; split;
                               [reflexivity | discriminate]|].
        split; [discriminate|]. split; [reflexivity|].
        intros; contradiction.
      * destruct (MultiIOScope_dtor_reports self f w') as (w2 & D & T2 & _).
        { unfold MultiIOScope_reports, self. cbn.
          destruct l; [contradiction | reflexivity]. }
        { reflexivity. }
        { rewrite Mx. exact Hm. }
        erewrite bind_Ok by exact D.
        eexists [], w2, _. split; [reflexivity|].
        rewrite T2, T, app_nil_r. cbn. rewrite <- app_assoc. cbn.
        split; [reflexivity|]. split; [unfold io_report; cbn; lia|].
        split; [exists IOBytesDelta.zero; rewrite N; split;
                [reflexivity | discriminate]|].
        split; [discriminate|].
        split; [intros [H|H]; [lia | contradiction]|].
        intros _ _ _. eauto.
    + erewrite bind_Ok
        by (apply MultiIOScope_dtor_silent;
            apply MultiIOScope_reports_finished).
      rewrite R in T by discriminate.
      eexists _, w', _. split; [reflexivity|].
      rewrite T. cbn. rewrite <- app_assoc. cbn.
      split; [reflexivity|]. split; [cbn; lia|].
      split; [exists d; split; [reflexivity | discriminate]|].
      split; [discriminate|]. split; [reflexivity|].
      intros H; lia.
  - erewrite bind_Ok by apply MultiIOScope_ctor_none.
    destruct (MultiIOScope_run_unfinished (MultiIOScope.init None l) acts w)
      as (ds & self' & w' & evs & E & T & _ & _ & R); [reflexivity|].
    erewrite bind_Ok by exact E. cbn beta iota.
    assert (MultiIOScope_reports self' = false) as S.
    { destruct R as [(_ & _ & -> & _)|(d & _ & _ & -> & _)]; reflexivity. }
    erewrite bind_Ok by (apply MultiIOScope_dtor_silent; exact S).
    exists ds, w', evs. split; [reflexivity|].
    assert (evs = []) as ->.
    { destruct R as [(_ & _ & _ & ->)|(d & _ & _ & _ & _ & R & _)];
        [reflexivity | apply R; reflexivity]. }
    split; [exact T|]. split; [cbn; lia|]. split.
    { destruct R as [(N & -> & _)|(d & _ & -> & _ & Bd & R & _)].
      - exists IOBytesDelta.zero. rewrite N. split; reflexivity.
      - exists d. split; [reflexivity|]. intros _.
        destruct (R eq_refl) as [R' _]. destruct d as [b e]. cbn in *.
        subst. reflexivity. }
    split; [reflexivity|]. split; [reflexivity|]. intros _ H. contradiction.
Qed.

End enabled_multi.

(** ** The enabled build: the timers *)

Lemma append_assoc (s t u : string) : (s +:+ t) +:+ u = s +:+ t +:+ u.
Proof.
  induction s as [|c s IH]; [reflexivity|].
  rewrite !append_cons, IH. reflexivity.
Qed.

Lemma written_app o a b : written o (a ++ b) = written o a +:+ written o b.
Proof.
  induction a as [|e a IH]; [reflexivity|].
  destruct e; simpl; try exact IH.
  destruct (decide (o0 = o)); [|exact IH].
  rewrite IH, append_assoc. reflexivity.
Qed.

Section enabled_timers.
Context {B : Build}.
Hypothesis on : CHEETAH_ENABLE_PERF = true.

Lemma ms_since_on start w :
  ms_since start w = Ok (elapsed w start, push EvNow (tick w)).
Proof. unfold ms_since. rewrite on. reflexivity. Qed.

Lemma ScopedTimer_ctor_on lbl w :
  ScopedTimer.ctor lbl w
  = Ok (ScopedTimer.mk lbl (clock w (clock_reads w)), push EvNow (tick w)).
Proof. unfold ScopedTimer.ctor. rewrite on. reflexivity. Qed.

Lemma ScopedTimer_dtor_on self w :
  mutex w = false ->
  ScopedTimer.dtor self w
  = Ok (tt, after_report w
              (time_report (cout_fmt w)
                 (default EmptyString (ScopedTimer.label self))
                 (elapsed w (ScopedTimer.t0 self)))).
Proof.
  intros Hm. destruct w as [m c r mx fo fe tr]. cbn in Hm. subst mx.
  unfold ScopedTimer.dtor, ms_since. rewrite on.
  destruct (ScopedTimer.label self) as [l|]; run_world;
    rewrite <- !app_assoc, ?pad_width0; reflexivity.
Qed.

Lemma StageTimer_done_on self w :
  mutex w = false ->
  StageTimer.done self w
  = Ok (tt, after_report w
              (time_report (cout_fmt w) "TOTAL"
                 (elapsed w (StageTimer.t0 self)))).
Proof.
  intros Hm. destruct w as [m c r mx fo fe tr]. cbn in Hm. subst mx.
  unfold StageTimer.done, ms_since. rewrite on. run_world.
  rewrite <- !app_assoc, ?pad_width0. reflexivity.
Qed.

Lemma StageTimer_ctor_on n pref w :
  mutex w = false ->
  StageTimer.ctor n pref w
  = Ok (StageTimer.mk pref n (clock w (clock_reads w)),
        mk_world (mem w) (clock w) (S (clock_reads w)) false
                 (mk_fmt 0 (adjust_left (cout_fmt w))) (cerr_fmt w)
                 (trace w ++ stage_header (cout_fmt w) pref
                                          (default EmptyString n))).
Proof.
  intros Hm. destruct w as [m c r mx fo fe tr]. cbn in Hm. subst mx.
  unfold StageTimer.ctor. rewrite on.
  destruct n as [nm|], (empty pref) eqn:Ep; run_world; rewrite ?Ep;
    run_world; rewrite <- !app_assoc, ?pad_width0; reflexivity.
Qed.

Lemma written_time_report f field ms :
  width f = 0%nat ->
  written Cout (time_report f field ms) = time_line field ms.
Proof.
  intros W. unfold time_report, time_line. cbn.
  rewrite !decide_True by reflexivity.
  rewrite pad_no_width by exact W.
  rewrite append_empty_r. reflexivity.
Qed.

(** [n] calls of [done()] in a row: [n] clock reads, [n] total lines, each
    measured from the same start instant. *)
Lemma StageTimer_done_times_on n self w :
  mutex w = false -> width (cout_fmt w) = 0%nat ->
  exists w' evs,
    StageTimer.done_times n self w = Ok (tt, w') /\
    trace w' = trace w ++ evs /\
    written Cout evs
      = total_lines (clock w) (StageTimer.t0 self) (clock_reads w) n /\
    written Cerr evs = EmptyString /\
    ticks evs = n /\
    length (writes evs) = (4 * n)%nat /\
    mutex w' = false /\ width (cout_fmt w') = 0%nat /\
    clock w' = clock w /\ clock_reads w' = (clock_reads w + n)%nat.
Proof.
  revert w. induction n as [|n IH]; intros w Hm Hw.
  - exists w, []. cbn. rewrite app_nil_r, Nat.add_0_r. auto 10.
  - cbn [StageTimer.done_times].
    erewrite bind_Ok by (apply StageTimer_done_on; exact Hm).
    set (r := time_report _ _ _).
    destruct (IH (after_report w r)) as (w' & evs & E & T & Wo & We & K & L & R);
      [reflexivity | reflexivity |].
    exists w', (r ++ evs). split; [exact E|].
    split; [rewrite T; unfold after_report; cbn [trace];
            rewrite <- app_assoc; reflexivity|].
    split.
    { rewrite written_app, Wo. unfold r.
      rewrite written_time_report by exact Hw. reflexivity. }
    split; [rewrite written_app, We; reflexivity|].
    split; [rewrite ticks_app, K; reflexivity|].
    split; [rewrite writes_app, length_app, L; cbn; lia|].
    destruct R as (R1 & R2 & R3 & R4).
    repeat split; try assumption. rewrite R4. cbn. lia.
Qed.

End enabled_timers.

(** ** Every insertion is made under the lock *)

Lemma exec_trace {B : Build} o w :
  mutex w = false ->
  match exec o w with
  | Ok (_, w') =>
      exists evs,
        trace w' = trace w ++ evs /\
        guarded false evs = true /\
        held_after false evs = false /\
        mutex w' = false /\
        Forall (fun p => p.1 = stream_of_op o) (writes evs)
  | Fault f => exists a, f = BadLoad a
  end.
Proof.
  intros Hm. destruct w as [m c r mx fo fe tr]. cbn in Hm. subst mx.
  destruct o as [start|s|cnt l|[cnt l b fin la]|[cnt l b fin la]
                |rd l|[rd l b fin la]|[rd l b fin la]
                |lbl|[lbl t0]|n pref|[pref n t0]|[pref n t0]];
    run_call; repeat (split_test; run_call);
    first [ trace_shape
          | eexists; reflexivity
          | exfalso; subst; cbv in *; congruence ].
Qed.

Lemma exec_guarded {B : Build} o w w' :
  mutex w = false -> exec o w = Ok (tt, w') ->
  exists evs,
    trace w' = trace w ++ evs /\
    guarded false evs = true /\
    held_after false evs = false /\
    mutex w' = false /\
    Forall (fun p => p.1 = stream_of_op o) (writes evs).
Proof.
  intros Hm E. pose proof (exec_trace o w Hm) as H.
  rewrite E in H. exact H.
Qed.

(** The same for a program: a sequence of calls. *)
Lemma exec_all_guarded {B : Build} os w w' :
  mutex w = false -> exec_all os w = Ok (tt, w') ->
  exists evs,
    trace w' = trace w ++ evs /\
    guarded false evs = true /\
    held_after false evs = false /\
    mutex w' = false.
Proof.
  revert w. induction os as [|o os IH]; intros w Hm E.
  - cbn in E. injection E as <-. exists []. rewrite app_nil_r. auto.
  - cbn [exec_all] in E. apply bind_inv in E as ([] & w1 & E1 & E2).
    destruct (exec_guarded o w w1 Hm E1) as (e1 & T1 & G1 & H1 & M1 & _).
    destruct (IH w1 M1 E2) as (e2 & T2 & G2 & H2 & M2).
    exists (e1 ++ e2). rewrite T2, T1, app_assoc.
    rewrite guarded_app, held_after_app, G1, H1, G2, H2. auto.
Qed.

(** ** Binary64 arithmetic on byte counts *)

Lemma digits2_pos_size p : digits2_pos p = Pos.size p.
Proof. induction p as [p IH|p IH|]; cbn; rewrite ?IH; reflexivity. Qed.

(** A positive number has [k] binary digits exactly when it lies in
    [2^(k-1), 2^k). *)
Lemma digits2_bounds p :
  2 ^ (Z.pos (digits2_pos p) - 1) <= Z.pos p < 2 ^ Z.pos (digits2_pos p).
Proof.
  rewrite digits2_pos_size.
  pose proof (Pos.size_le p) as L. pose proof (Pos.size_gt p) as G.
  apply Pos2Z.pos_le_pos in L. apply Pos2Z.pos_lt_pos in G.
  rewrite Pos2Z.inj_pow in L, G.
  split; [|exact G].
  assert (2 ^ Z.pos (Pos.size p) = 2 * 2 ^ (Z.pos (Pos.size p) - 1)) as E.
  { replace (Z.pos (Pos.size p)) with (Z.succ (Z.pos (Pos.size p) - 1)) at 1
      by lia.
    apply Z.pow_succ_r. lia. }
  lia.
Qed.

Lemma digits2_unique p k :
  2 ^ (k - 1) <= Z.pos p < 2 ^ k -> Z.pos (digits2_pos p) = k.
Proof.
  intros [L G]. pose proof (digits2_bounds p) as [L' G'].
  set (d := Z.pos (digits2_pos p)) in *.
  assert (0 < k) as Hk.
  { destruct (Z.ltb_spec 0 k) as [|N]; [assumption|].
    rewrite (Z.pow_neg_r 2 (k - 1)) in L by lia.
    destruct (Z.eqb_spec k 0) as [->|]; [cbn in G; lia|].
    rewrite (Z.pow_neg_r 2 k) in G by lia. lia. }
  assert (d - 1 < k) as H1.
  { apply (Z.pow_lt_mono_r_iff 2); lia. }
  assert (k - 1 < d) as H2.
  { apply (Z.pow_lt_mono_r_iff 2); lia. }
  lia.
Qed.

(** The last step of rounding, on a mantissa that already has 53 digits:
    nothing is shifted out. *)
Lemma round_tail s m e :
  Z.pos (digits2_pos m) = 53 -> -1074 <= e <= 971 ->
  (let '(mrs, e') := shr_fexp dbl_prec dbl_emax (Z.pos m) e loc_Exact in
   match shr_m mrs with
   | Z0 => S754_zero s
   | Z.pos m' => if Z.leb e' (dbl_emax - dbl_prec) then S754_finite s m' e'
                 else S754_infinity s
   | Z.neg _ => S754_nan
   end) = S754_finite s m e.
Proof.
  intros D R.
  unfold shr_fexp, fexp, emin, dbl_prec, dbl_emax.
  cbn [Zdigits2]. rewrite D.
  replace (Z.max (53 + e - 53) (3 - 1024 - 53) - e) with 0 by lia.
  cbn [shr shr_record_of_loc shr_m].
  destruct (Z.leb_spec e (1024 - 53)); [reflexivity | lia].
Qed.

(** The same when rounding up has carried into a 54th digit: the mantissa
    is [2^53] and one more shift renormalises it. *)
Lemma round_tail_carry s e :
  -1074 <= e <= 970 ->
  (let '(mrs, e') := shr_fexp dbl_prec dbl_emax (Z.pos (2 ^ 53)) e loc_Exact in
   match shr_m mrs with
   | Z0 => S754_zero s
   | Z.pos m' => if Z.leb e' (dbl_emax - dbl_prec) then S754_finite s m' e'
                 else S754_infinity s
   | Z.neg _ => S754_nan
   end) = S754_finite s (2 ^ 52) (e + 1).
Proof.
  intros R.
  unfold shr_fexp, fexp, emin, dbl_prec, dbl_emax.
  change (Zdigits2 (Z.pos (2 ^ 53))) with 54.
  replace (Z.max (54 + e - 53) (3 - 1024 - 53) - e) with 1 by lia.
  cbn [shr shr_record_of_loc SpecFloat.iter_pos]. cbn [shr_1 shr_m Pos.pow].
  change (shr_m (shr_1 (Build_shr_record (Z.pos (2 ^ 53)) false false)))
    with (Z.pos (2 ^ 52)).
  destruct (Z.leb_spec (e + 1) (1024 - 53)); [reflexivity | lia].
Qed.

(** A mantissa of 53 digits with an exponent in range is already a
    binary64 number: rounding it is the identity. *)
Lemma round_normal s m e :
  Z.pos (digits2_pos m) = 53 -> -1074 <= e <= 971 ->
  binary_round_aux dbl_prec dbl_emax s (Z.pos m) e loc_Exact
  = S754_finite s m e.
Proof.
  intros D R. unfold binary_round_aux.
  assert (shr_fexp dbl_prec dbl_emax (Z.pos m) e loc_Exact
          = (Build_shr_record (Z.pos m) false false, e)) as ->.
  { unfold shr_fexp, fexp, emin, dbl_prec, dbl_emax.
    cbn [Zdigits2]. rewrite D.
    replace (Z.max (53 + e - 53) (3 - 1024 - 53) - e) with 0 by lia.
    reflexivity. }
  cbn [shr_m loc_of_shr_record round_nearest_even].
  apply round_tail; assumption.
Qed.

(** Dividing a normal binary64 number by a power of two only lowers its
    exponent: the division is exact. *)
Lemma div_pow2 s m e k :
  Z.pos (digits2_pos m) = 53 -> 0 <= k <= 52 ->
  -1073 <= e - k -> e - k <= 971 ->
  dbl_div (S754_finite s m e) (S754_finite false (2 ^ 52) (k - 52))
  = S754_finite s m (e - k).
Proof.
  intros D K L U. unfold dbl_div, SFdiv.
  assert (SFdiv_core_binary dbl_prec dbl_emax (Z.pos m) e
            (Z.pos (2 ^ 52)) (k - 52)
          = (Z.pos m~0, e - k - 1, loc_Exact)) as ->.
  { unfold SFdiv_core_binary, fexp, emin, dbl_prec, dbl_emax.
    cbn [Zdigits2]. rewrite D.
    change (Z.pos (digits2_pos (2 ^ 52))) with 53.
    replace (Z.min (Z.max (53 + e - (53 + (k - 52)) - 53) (3 - 1024 - 53))
                   (e - (k - 52))) with (e - k - 1) by lia.
    replace (e - (k - 52) - (e - k - 1)) with 53 by lia.
    assert (Z.div_eucl (Z.shiftl (Z.pos m) 53) (Z.pos (2 ^ 52))
            = (Z.pos m~0, 0)) as ->.
    { rewrite Z.shiftl_mul_pow2 by lia.
      pose proof (Z.div_eucl_eq (Z.pos m * 2 ^ 53) (Z.pos (2 ^ 52))
                    ltac:(discriminate)) as Q.
      pose proof (Z.mod_pos_bound (Z.pos m * 2 ^ 53) (Z.pos (2 ^ 52))
                    ltac:(reflexivity)) as Bd.
      unfold Z.modulo in Bd.
      destruct (Z.div_eucl (Z.pos m * 2 ^ 53) (Z.pos (2 ^ 52))) as [q r].
      change (Z.pos (2 ^ 52)) with 4503599627370496 in *.
      change (2 ^ 53) with 9007199254740992 in *.
      f_equal; lia. }
    reflexivity. }
  unfold binary_round_aux.
  assert (shr_fexp dbl_prec dbl_emax (Z.pos m~0) (e - k - 1) loc_Exact
          = (Build_shr_record (Z.pos m) false false, e - k)) as ->.
  { unfold shr_fexp, fexp, emin, dbl_prec, dbl_emax.
    cbn [Zdigits2 digits2_pos]. rewrite Pos2Z.inj_succ, D.
    replace (Z.max (Z.succ 53 + (e - k - 1) - 53) (3 - 1024 - 53)
             - (e - k - 1)) with 1 by lia.
    cbn. f_equal. lia. }
  cbn [shr_m loc_of_shr_record round_nearest_even].
  assert (shr_fexp dbl_prec dbl_emax (Z.pos m) (e - k) loc_Exact
          = (Build_shr_record (Z.pos m) false false, e - k)) as ->.
  { unfold shr_fexp, fexp, emin, dbl_prec, dbl_emax.
    cbn [Zdigits2]. rewrite D.
    replace (Z.max (53 + (e - k) - 53) (3 - 1024 - 53) - (e - k))
      with 0 by lia.
    reflexivity. }
  cbn [shr_m]. unfold dbl_emax, dbl_prec.
  destruct (Z.leb_spec (e - k) (1024 - 53)); [|lia].
  destruct s; reflexivity.
Qed.

Lemma iter_pos_nat {A : Type} (f : A -> A) n x :
  SpecFloat.iter_pos f n x = Nat.iter (Pos.to_nat n) f x.
Proof.
  revert x. induction n as [n IH|n IH|]; intros x; cbn [SpecFloat.iter_pos].
  - rewrite !IH, Pos2Nat.inj_xI.
    replace (S (2 * Pos.to_nat n)) with (Pos.to_nat n + (Pos.to_nat n + 1))%nat
      by lia.
    rewrite !Nat.iter_add. reflexivity.
  - rewrite !IH, Pos2Nat.inj_xO.
    replace (2 * Pos.to_nat n)%nat with (Pos.to_nat n + Pos.to_nat n)%nat
      by lia.
    rewrite Nat.iter_add. reflexivity.
  - reflexivity.
Qed.

(** One right shift of a mantissa of at least two digits drops a digit. *)
Lemma shr_1_digits p r s :
  1 < Z.pos (digits2_pos p) ->
  exists p' r' s',
    shr_1 (Build_shr_record (Z.pos p) r s) = Build_shr_record (Z.pos p') r' s'
    /\ Z.pos (digits2_pos p') = Z.pos (digits2_pos p) - 1.
Proof.
  intros D. destruct p as [p|p|]; cbn in *; [| |lia];
    do 3 eexists; (split; [reflexivity | lia]).
Qed.

Lemma iter_shr_1_digits n p r s :
  Z.of_nat n < Z.pos (digits2_pos p) ->
  exists p' r' s',
    Nat.iter n shr_1 (Build_shr_record (Z.pos p) r s)
    = Build_shr_record (Z.pos p') r' s'
    /\ Z.pos (digits2_pos p') = Z.pos (digits2_pos p) - Z.of_nat n.
Proof.
  induction n as [|n IH]; intros D.
  - exists p, r, s. split; [reflexivity | lia].
  - destruct IH as (p1 & r1 & s1 & E & D1); [lia|].
    rewrite Nat.iter_succ, E.
    destruct (shr_1_digits p1 r1 s1) as (p2 & r2 & s2 & E2 & D2); [lia|].
    exists p2, r2, s2. split; [exact E2 | lia].
Qed.

Lemma iter_xO_digits k p :
  Z.pos (digits2_pos (Pos.iter xO p k)) = Z.pos (digits2_pos p) + Z.pos k.
Proof.
  induction k as [|k IH] using Pos.peano_ind.
  - cbn. lia.
  - rewrite Pos.iter_succ. cbn [digits2_pos]. lia.
Qed.

(** The conversion of a [uint64_t] to [double] yields such a number. *)
Lemma dbl_of_u64_normal x : is_u64 x -> normal_count (dbl_of_u64 x).
Proof.
  intros [L U]. unfold two64 in U. destruct x as [|p|p]; [left; reflexivity| |lia].
  right. unfold dbl_of_u64, dbl_of_Z, binary_normalize, binary_round.
  pose proof (digits2_bounds p) as [DL DU].
  set (d := Z.pos (digits2_pos p)) in *.
  assert (1 <= d <= 64) as Hd.
  { split; [unfold d; lia|].
    destruct (Z.leb_spec d 64) as [|N]; [assumption|].
    assert (2 ^ 64 <= 2 ^ (d - 1)) by (apply Z.pow_le_mono_r; lia). lia. }
  unfold shl_align.
  replace (fexp dbl_prec dbl_emax (d + 0) - 0) with (d - 53)
    by (unfold fexp, emin, dbl_prec, dbl_emax; lia).
  destruct (d - 53) as [|n|n] eqn:En.
  - (* exactly 53 digits *)
    exists p, 0. rewrite round_normal by (fold d; lia).
    repeat split; lia.
  - (* more than 53 digits: the low ones are rounded away *)
    destruct (iter_shr_1_digits (Pos.to_nat n) p false false)
      as (q & r & s & E & Dq); [fold d; lia|].
    fold d in Dq.
    assert (Z.pos (digits2_pos q) = 53) as Dq' by lia.
    pose proof (digits2_bounds q) as Bq. rewrite Dq' in Bq.
    change (2 ^ (53 - 1)) with 4503599627370496 in Bq.
    change (2 ^ 53) with 9007199254740992 in Bq.
    unfold binary_round_aux.
    assert (shr_fexp dbl_prec dbl_emax (Z.pos p) 0 loc_Exact
            = (Build_shr_record (Z.pos q) r s, Z.pos n)) as ->.
    { unfold shr_fexp, fexp, emin, dbl_prec, dbl_emax.
      cbn [Zdigits2 shr_record_of_loc]. fold d.
      replace (Z.max (d + 0 - 53) (3 - 1024 - 53) - 0) with (Z.pos n) by lia.
      cbn [shr]. rewrite iter_pos_nat, E. reflexivity. }
    cbn [shr_m].
    assert (round_nearest_even (Z.pos q)
              (loc_of_shr_record (Build_shr_record (Z.pos q) r s)) = Z.pos q
            \/ round_nearest_even (Z.pos q)
              (loc_of_shr_record (Build_shr_record (Z.pos q) r s))
               = Z.pos (q + 1)) as [->| ->].
    { destruct r, s; cbn [loc_of_shr_record round_nearest_even]; auto.
      destruct (Z.even (Z.pos q)); auto. }
    + exists q, (Z.pos n).
      rewrite round_tail by (try exact Dq'; lia).
      repeat split; try lia.
    + destruct (Z.eqb_spec (Z.pos (q + 1)) 9007199254740992) as [C|C].
      * exists (2 ^ 52)%positive, (Z.pos n + 1).
        assert ((q + 1)%positive = (2 ^ 53)%positive) as -> by lia.
        rewrite round_tail_carry by lia.
        repeat split; try lia.
      * assert (Z.pos (digits2_pos (q + 1)) = 53) as Dc.
        { apply digits2_unique.
          change (2 ^ (53 - 1)) with 4503599627370496.
          change (2 ^ 53) with 9007199254740992. lia. }
        exists (q + 1)%positive, (Z.pos n).
        rewrite round_tail by (try exact Dc; lia).
        repeat split; try lia.
  - (* fewer than 53 digits: the mantissa is shifted left *)
    assert (Z.pos (digits2_pos (Pos.iter xO p n)) = 53) as Dn.
    { rewrite iter_xO_digits. fold d. lia. }
    exists (Pos.iter xO p n), (Z.neg n).
    replace (fexp dbl_prec dbl_emax (d + 0)) with (Z.neg n)
      by (unfold fexp, emin, dbl_prec, dbl_emax; lia).
    rewrite round_normal by (try exact Dn; lia).
    repeat split; try lia.
Qed.

(** ** Scopes without a measurement source, and scopes in a disabled build *)

Section scripts_off.
Context {B : Build}.
Hypothesis off : CHEETAH_ENABLE_PERF = false.

Lemma IOScope_run_off self acts w :
  exists self',
    IOScope.run self acts w
    = Ok ((replicate (finishes acts) IOBytesDelta.zero, self'),
          set_mem (mem_after acts (mem w)) w).
Proof.
  revert self w. induction acts as [|[|f] acts IH]; intros self w.
  - exists self. cbn. rewrite set_mem_id. reflexivity.
  - cbn [IOScope.run finishes mem_after].
    erewrite bind_Ok by (apply IOScope_finish_off; exact off).
    cbn beta iota. destruct (IH (IOScope.mk (IOScope.counter_ self)
      (IOScope.label_ self) (IOScope.begin_ self) true (IOScope.last_ self)) w)
      as [self' E].
    exists self'. erewrite bind_Ok by exact E. reflexivity.
  - cbn [IOScope.run finishes mem_after].
    erewrite bind_Ok by apply app_Ok.
    destruct (IH self (set_mem (f (mem w)) w)) as [self' E].
    exists self'. rewrite E. reflexivity.
Qed.

Lemma IOScope_lifetime_off c l acts w :
  IOScope.lifetime c l acts w
  = Ok (replicate (finishes acts) IOBytesDelta.zero,
        set_mem (mem_after acts (mem w)) w).
Proof.
  unfold IOScope.lifetime.
  assert (IOScope.ctor c l w = Ok (IOScope.init c l, w)) as C
    by (unfold IOScope.ctor; rewrite off; reflexivity).
  erewrite bind_Ok by exact C.
  destruct (IOScope_run_off (IOScope.init c l) acts w) as [self' E].
  erewrite bind_Ok by exact E. cbn beta iota.
  assert (forall w1, IOScope.dtor self' w1 = Ok (tt, w1)) as D
    by (intros w1; unfold IOScope.dtor; rewrite off; reflexivity).
  erewrite bind_Ok by apply D. reflexivity.
Qed.

Lemma MultiIOScope_run_off self acts w :
  exists self',
    MultiIOScope.run self acts w
    = Ok ((replicate (finishes acts) IOBytesDelta.zero, self'),
          set_mem (mem_after acts (mem w)) w).
Proof.
  revert self w. induction acts as [|[|f] acts IH]; intros self w.
  - exists self. cbn. rewrite set_mem_id. reflexivity.
  - cbn [MultiIOScope.run finishes mem_after].
    erewrite bind_Ok by (apply MultiIOScope_finish_off; exact off).
    cbn beta iota. destruct (IH (MultiIOScope.mk (MultiIOScope.reader_ self)
      (MultiIOScope.label_ self) (MultiIOScope.begin_ self) true
      (MultiIOScope.last_ self)) w) as [self' E].
    exists self'. erewrite bind_Ok by exact E. reflexivity.
  - cbn [MultiIOScope.run finishes mem_after].
    erewrite bind_Ok by apply app_Ok.
    destruct (IH self (set_mem (f (mem w)) w)) as [self' E].
    exists self'. rewrite E. reflexivity.
Qed.

Lemma MultiIOScope_lifetime_off r l acts w :
  MultiIOScope.lifetime r l acts w
  = Ok (replicate (finishes acts) IOBytesDelta.zero,
        set_mem (mem_after acts (mem w)) w).
Proof.
  unfold MultiIOScope.lifetime.
  assert (MultiIOScope.ctor r l w = Ok (MultiIOScope.init r l, w)) as C
    by (unfold MultiIOScope.ctor; rewrite off; reflexivity).
  erewrite bind_Ok by exact C.
  destruct (MultiIOScope_run_off (MultiIOScope.init r l) acts w) as [self' E].
  erewrite bind_Ok by exact E. cbn beta iota.
  assert (forall w1, MultiIOScope.dtor self' w1 = Ok (tt, w1)) as D
    by (intros w1; unfold MultiIOScope.dtor; rewrite off; reflexivity).
  erewrite bind_Ok by apply D. reflexivity.
Qed.

End scripts_off.

Section scripts_null.
Context {B : Build}.
Hypothesis on : CHEETAH_ENABLE_PERF = true.

Lemma IOScope_run_null self acts w :
  IOScope.counter_ self = 0%N -> IOScope.finished_ self = false ->
  exists self',
    IOScope.run self acts w
    = Ok ((replicate (finishes acts)
             (IOBytesDelta.mk (IOScope.begin_ self) (IOScope.begin_ self)),
           self'),
          set_mem (mem_after acts (mem w)) w) /\
    IOScope_reports self' = false.
Proof.
  intros C F. revert w. induction acts as [|[|f] acts IH]; intros w.
  - exists self. cbn. rewrite set_mem_id. split; [reflexivity|].
    unfold IOScope_reports. rewrite C, F. reflexivity.
  - cbn [IOScope.run finishes mem_after].
    erewrite bind_Ok by (apply (IOScope_finish_first_null on); assumption).
    cbn beta iota.
    erewrite bind_Ok by (apply (IOScope_run_finished on); reflexivity).
    eexists. split; reflexivity.
  - cbn [IOScope.run finishes mem_after].
    erewrite bind_Ok by apply app_Ok.
    destruct (IH (set_mem (f (mem w)) w)) as (self' & E & R).
    exists self'. rewrite E. split; [reflexivity | exact R].
Qed.

Lemma MultiIOScope_run_none self acts w :
  MultiIOScope.reader_ self = None -> MultiIOScope.finished_ self = false ->
  exists self',
    MultiIOScope.run self acts w
    = Ok ((replicate (finishes acts)
             (IOBytesDelta.mk (MultiIOScope.begin_ self)
                              (MultiIOScope.begin_ self)),
           self'),
          set_mem (mem_after acts (mem w)) w) /\
    MultiIOScope_reports self' = false.
Proof.
  intros C F. revert w. induction acts as [|[|f] acts IH]; intros w.
  - exists self. cbn. rewrite set_mem_id. split; [reflexivity|].
    unfold MultiIOScope_reports. rewrite C, F. reflexivity.
  - cbn [MultiIOScope.run finishes mem_after].
    erewrite bind_Ok
      by (apply (MultiIOScope_finish_first_none on); assumption).
    cbn beta iota.
    erewrite bind_Ok by (apply (MultiIOScope_run_finished on); reflexivity).
    eexists. split; reflexivity.
  - cbn [MultiIOScope.run finishes mem_after].
    erewrite bind_Ok by apply app_Ok.
    destruct (IH (set_mem (f (mem w)) w)) as (self' & E & R).
    exists self'. rewrite E. split; [reflexivity | exact R].
Qed.

End scripts_null.

(** A scope without a counter, in either build: nothing is read, nothing is
    written, and every [finish()] returns the zero delta. *)
Lemma IOScope_lifetime_null {B : Build} l acts w :
  IOScope.lifetime 0%N l acts w
  = Ok (replicate (finishes acts) IOBytesDelta.zero,
        set_mem (mem_after acts (mem w)) w).
Proof.
  destruct CHEETAH_ENABLE_PERF eqn:E; [|apply IOScope_lifetime_off; exact E].
  unfold IOScope.lifetime.
  erewrite bind_Ok by (apply IOScope_ctor_null; exact E).
  destruct (IOScope_run_null E (IOScope.init 0%N l) acts w)
    as (self' & R & S); [reflexivity | reflexivity |].
  erewrite bind_Ok by exact R. cbn beta iota.
  erewrite bind_Ok by (apply IOScope_dtor_silent; assumption).
  reflexivity.
Qed.

Lemma MultiIOScope_lifetime_none {B : Build} l acts w :
  MultiIOScope.lifetime None l acts w
  = Ok (replicate (finishes acts) IOBytesDelta.zero,
        set_mem (mem_after acts (mem w)) w).
Proof.
  destruct CHEETAH_ENABLE_PERF eqn:E;
    [|apply MultiIOScope_lifetime_off; exact E].
  unfold MultiIOScope.lifetime.
  erewrite bind_Ok by (apply MultiIOScope_ctor_none; exact E).
  destruct (MultiIOScope_run_none E (MultiIOScope.init None l) acts w)
    as (self' & R & S); [reflexivity | reflexivity |].
  erewrite bind_Ok by exact R. cbn beta iota.
  erewrite bind_Ok by (apply MultiIOScope_dtor_silent; assumption).
  reflexivity.
Qed.

(** ** The mebibyte count is one exact division *)

Lemma mib_single_division d :
  IOBytesDelta.mib d
  = dbl_div (dbl_of_u64 (IOBytesDelta.bytes d)) (dbl_of_Z 1048576).
Proof.
  unfold IOBytesDelta.mib.
  destruct (dbl_of_u64_normal (IOBytesDelta.bytes d) (wrap64_range _))
    as [Z|(m & e & E & D & R)].
  - rewrite Z. reflexivity.
  - rewrite E.
    change (dbl_of_Z 1024) with (S754_finite false (2 ^ 52) (10 - 52)).
    change (dbl_of_Z 1048576) with (S754_finite false (2 ^ 52) (20 - 52)).
    rewrite !div_pow2 by (try exact D; lia).
    f_equal. lia.
Qed.

(** ** Facts that hold in either build *)

Lemma IOScope_finish_marks {B : Build} self w :
  match IOScope.finish self w with
  | Ok ((_, self'), _) =>
      IOScope.finished_ self' = true /\
      IOScope.label_ self' = IOScope.label_ self /\
      IOScope.counter_ self' = IOScope.counter_ self
  | Fault f => exists a, f = BadLoad a
  end.
Proof.
  destruct self as [cnt l b fin la], w as [m c r mx fo fe tr].
  run_call; repeat (split_test; run_call);
    first [ repeat split; reflexivity
          | eexists; reflexivity
          | exfalso; subst; cbv in *; congruence ].
Qed.

Lemma MultiIOScope_finish_marks {B : Build} self w :
  match MultiIOScope.finish self w with
  | Ok ((_, self'), _) =>
      MultiIOScope.finished_ self' = true /\
      MultiIOScope.label_ self' = MultiIOScope.label_ self /\
      MultiIOScope.reader_ self' = MultiIOScope.reader_ self
  | Fault _ => False
  end.
Proof.
  destruct self as [rd l b fin la], w as [m c r mx fo fe tr].
  run_call; repeat (split_test; run_call); repeat split; reflexivity.
Qed.

Lemma IOScope_dtor_quiet {B : Build} self w :
  IOScope.finished_ self = true \/ IOScope.counter_ self = 0%N \/
  IOScope.label_ self = EmptyString ->
  IOScope.dtor self w = Ok (tt, w).
Proof.
  intros H. unfold IOScope.dtor.
  destruct CHEETAH_ENABLE_PERF; [|reflexivity].
  destruct H as [-> | [-> | ->]]; cbn; rewrite ?andb_false_r; reflexivity.
Qed.

Lemma MultiIOScope_dtor_quiet {B : Build} self w :
  MultiIOScope.finished_ self = true \/ MultiIOScope.reader_ self = None \/
  MultiIOScope.label_ self = EmptyString ->
  MultiIOScope.dtor self w = Ok (tt, w).
Proof.
  intros H. unfold MultiIOScope.dtor.
  destruct CHEETAH_ENABLE_PERF; [|reflexivity].
  destruct H as [-> | [-> | ->]]; cbn; rewrite ?andb_false_r; reflexivity.
Qed.

Lemma IOScope_lifetime_writes {B : Build} c l acts w :
  mutex w = false ->
  c = 0%N \/ (is_Some (mem w !! c) /\ keeps_counter c acts) ->
  exists ds w' evs,
    IOScope.lifetime c l acts w = Ok (ds, w') /\
    trace w' = trace w ++ evs /\
    ((0 < finishes acts)%nat \/ l = EmptyString \/ c = 0%N ->
     writes evs = []).
Proof.
  intros Hm V. destruct CHEETAH_ENABLE_PERF eqn:E.
  - destruct (IOScope_lifetime_spec E c l acts w Hm V)
      as (ds & w' & evs & L & T & _ & _ & N & W & _).
    exists ds, w', evs. split; [exact L|]. split; [exact T|].
    intros [H|[H|H]]; [apply W; left; exact H | apply W; right; exact H |].
    rewrite (N H). reflexivity.
  - rewrite (IOScope_lifetime_off E). do 2 eexists. exists [].
    split; [reflexivity|]. cbn. rewrite app_nil_r. auto.
Qed.

Lemma MultiIOScope_lifetime_writes {B : Build} r l acts w :
  mutex w = false ->
  exists ds w' evs,
    MultiIOScope.lifetime r l acts w = Ok (ds, w') /\
    trace w' = trace w ++ evs /\
    ((0 < finishes acts)%nat \/ l = EmptyString \/ r = None ->
     writes evs = []).
Proof.
  intros Hm. destruct CHEETAH_ENABLE_PERF eqn:E.
  - destruct (MultiIOScope_lifetime_spec E r l acts w Hm)
      as (ds & w' & evs & L & T & _ & _ & N & W & _).
    exists ds, w', evs. split; [exact L|]. split; [exact T|].
    intros [H|[H|H]]; [apply W; left; exact H | apply W; right; exact H |].
    rewrite (N H). reflexivity.
  - rewrite (MultiIOScope_lifetime_off E). do 2 eexists. exists [].
    split; [reflexivity|]. cbn. rewrite app_nil_r. auto.
Qed.

Lemma IOScope_ctor_null_any {B : Build} l w :
  IOScope.ctor 0%N l w = Ok (IOScope.init 0%N l, w).
Proof. unfold IOScope.ctor. destruct CHEETAH_ENABLE_PERF; reflexivity. Qed.

Lemma MultiIOScope_ctor_none_any {B : Build} l w :
  MultiIOScope.ctor None l w = Ok (MultiIOScope.init None l, w).
Proof. unfold MultiIOScope.ctor. destruct CHEETAH_ENABLE_PERF; reflexivity. Qed.

Lemma IOScope_finish_null_any {B : Build} self w :
  IOScope.counter_ self = 0%N -> IOScope.finished_ self = false ->
  exists d self',
    IOScope.finish self w = Ok ((d, self'), w) /\
    IOBytesDelta.end_ d = IOBytesDelta.begin d /\ IOBytesDelta.bytes d = 0.
Proof.
  intros C F. destruct CHEETAH_ENABLE_PERF eqn:E.
  - do 2 eexists. split; [apply (IOScope_finish_first_null E); assumption|].
    cbn. unfold IOBytesDelta.bytes. cbn. rewrite Z.sub_diag. auto.
  - do 2 eexists. split; [apply (IOScope_finish_off E)|]. auto.
Qed.

Lemma MultiIOScope_finish_none_any {B : Build} self w :
  MultiIOScope.reader_ self = None -> MultiIOScope.finished_ self = false ->
  exists d self',
    MultiIOScope.finish self w = Ok ((d, self'), w) /\
    IOBytesDelta.end_ d = IOBytesDelta.begin d /\ IOBytesDelta.bytes d = 0.
Proof.
  intros C F. destruct CHEETAH_ENABLE_PERF eqn:E.
  - do 2 eexists.
    split; [apply (MultiIOScope_finish_first_none E); assumption|].
    cbn. unfold IOBytesDelta.bytes. cbn. rewrite Z.sub_diag. auto.
  - do 2 eexists. split; [apply (MultiIOScope_finish_off E)|]. auto.
Qed.

(** A whole life of a stage timer in an enabled build: the header, then one
    total per call of [done()], each measured from the instant taken at
    construction. *)
Lemma StageTimer_lifetime_on {B : Build} nm pref n w :
  CHEETAH_ENABLE_PERF = true -> mutex w = false ->
  exists w' evs,
    StageTimer.lifetime nm pref n w = Ok (tt, w') /\
    trace w' = trace w
               ++ stage_header (cout_fmt w) pref (default EmptyString nm)
               ++ evs /\
    written Cout evs
      = total_lines (clock w) (clock w (clock_reads w))
                    (S (clock_reads w)) n /\
    written Cerr evs = EmptyString /\
    ticks evs = n /\
    length (writes evs) = (4 * n)%nat.
Proof.
  intros E Hm. unfold StageTimer.lifetime.
  erewrite bind_Ok by (apply StageTimer_ctor_on; assumption).
  set (w1 := mk_world _ _ _ _ _ _ _).
  destruct (StageTimer_done_times_on E n
              (StageTimer.mk pref nm (clock w (clock_reads w))) w1)
    as (w' & evs & D & T & Wo & We & K & L & _); [reflexivity | reflexivity |].
  erewrite bind_Ok by exact D.
  exists w', evs. split; [reflexivity|].
  split; [rewrite T; unfold w1; cbn [trace]; rewrite <- app_assoc;
          reflexivity|].
  auto.
Qed.


(** ** A life up to its first [finish()] *)

Lemma IOScope_run_skip {B : Build} self pre rest w :
  finishes pre = 0%nat ->
  IOScope.run self (pre ++ rest) w
  = IOScope.run self rest (set_mem (mem_after pre (mem w)) w).
Proof.
  revert w. induction pre as [|[|f] pre IH]; intros w N.
  - cbn. rewrite set_mem_id. reflexivity.
  - discriminate N.
  - rewrite <- app_comm_cons. cbn [IOScope.run mem_after].
    erewrite bind_Ok by apply app_Ok. rewrite IH by exact N. reflexivity.
Qed.

Lemma MultiIOScope_run_skip {B : Build} self pre rest w :
  finishes pre = 0%nat ->
  MultiIOScope.run self (pre ++ rest) w
  = MultiIOScope.run self rest (set_mem (mem_after pre (mem w)) w).
Proof.
  revert w. induction pre as [|[|f] pre IH]; intros w N.
  - cbn. rewrite set_mem_id. reflexivity.
  - discriminate N.
  - rewrite <- app_comm_cons. cbn [MultiIOScope.run mem_after].
    erewrite bind_Ok by apply app_Ok. rewrite IH by exact N. reflexivity.
Qed.

Lemma IOScope_lifetime_first_finish {B : Build} c l pre post v0 v1 w :
  CHEETAH_ENABLE_PERF = true ->
  c <> 0%N ->
  mem w !! c = Some v0 ->
  finishes pre = 0%nat ->
  mem_after pre (mem w) !! c = Some v1 ->
  IOScope.lifetime c l (pre ++ Finish :: post) w
  = Ok (replicate (S (finishes post))
          (IOBytesDelta.mk (wrap64 v0) (wrap64 v1)),
        set_mem (mem_after post (mem_after pre (mem w)))
          (push (EvLoad c) (push (EvLoad c) w))).
Proof.
  intros E C H0 N H1. unfold IOScope.lifetime.
  erewrite bind_Ok by (apply (IOScope_ctor_valid E); eassumption).
  cbn beta.
  set (self := IOScope.mk c l (wrap64 v0) false IOBytesDelta.zero).
  set (d := IOBytesDelta.mk (wrap64 v0) (wrap64 v1)).
  assert (IOScope.run self (pre ++ Finish :: post) (push (EvLoad c) w)
          = Ok ((replicate (S (finishes post)) d, IOScope_finished self d),
                set_mem (mem_after post (mem_after pre (mem w)))
                  (push (EvLoad c) (push (EvLoad c) w)))) as R.
  { rewrite IOScope_run_skip by exact N. cbn [IOScope.run].
    erewrite bind_Ok
      by (apply (IOScope_finish_first_valid E);
          [reflexivity | exact C | exact H1]).
    cbn beta iota.
    erewrite bind_Ok by (apply (IOScope_run_finished E); reflexivity).
    reflexivity. }
  erewrite bind_Ok by exact R. cbn beta iota.
  erewrite bind_Ok
    by (apply (IOScope_dtor_silent E); apply IOScope_reports_finished).
  reflexivity.
Qed.

Lemma MultiIOScope_lifetime_first_finish {B : Build} f l pre post w :
  CHEETAH_ENABLE_PERF = true ->
  finishes pre = 0%nat ->
  MultiIOScope.lifetime (Some f) l (pre ++ Finish :: post) w
  = Ok (replicate (S (finishes post))
          (IOBytesDelta.mk
             (wrap64 (f (mem w)).1)
             (wrap64 (f (mem_after pre (f (mem w)).2)).1)),
        set_mem (mem_after post (f (mem_after pre (f (mem w)).2)).2)
          (push EvCall (push EvCall w))).
Proof.
  intros E N. unfold MultiIOScope.lifetime.
  erewrite bind_Ok by apply (MultiIOScope_ctor_some E).
  cbn beta.
  set (m0 := (f (mem w)).2).
  set (m1 := mem_after pre m0).
  set (self := MultiIOScope.mk (Some f) l (wrap64 (f (mem w)).1) false
                               IOBytesDelta.zero).
  set (d := IOBytesDelta.mk (wrap64 (f (mem w)).1) (wrap64 (f m1).1)).
  assert (MultiIOScope.run self (pre ++ Finish :: post)
            (push EvCall (set_mem m0 w))
          = Ok ((replicate (S (finishes post)) d,
                 MultiIOScope_finished self d),
                set_mem (mem_after post (f m1).2)
                  (push EvCall (push EvCall w)))) as R.
  { rewrite MultiIOScope_run_skip by exact N. cbn [MultiIOScope.run].
    erewrite bind_Ok
      by (apply (MultiIOScope_finish_first_some E); reflexivity).
    cbn beta iota.
    erewrite bind_Ok by (apply (MultiIOScope_run_finished E); reflexivity).
    reflexivity. }
  erewrite bind_Ok by exact R. cbn beta iota.
  erewrite bind_Ok
    by (apply (MultiIOScope_dtor_silent E);
        apply MultiIOScope_reports_finished).
  reflexivity.
Qed.

(** * The claims *)

(** C1 — In an enabled build the constructor of an I/O scope (single
    counter or aggregated) reads its source once and keeps the value as the
    begin snapshot; the first [finish()] builds the delta from the begin
    snapshot and the value its source has now, stores it in [last_] and
    sets [finished_]; every later [finish()] returns the stored delta and
    leaves the world as it found it, the source unread.  Over a whole life,
    from construction to destruction, the source is read at most twice and
    all the deltas returned are the same one; in a life with a [finish()]
    that delta runs from the value read at construction to the value read
    at the first [finish()], and these two reads are the only ones of the
    life. *)
Theorem finish_is_idempotent {B : Build} :
  CHEETAH_ENABLE_PERF = true ->
  (forall self v w,
     IOScope.finished_ self = false -> IOScope.counter_ self <> 0%N ->
     mem w !! IOScope.counter_ self = Some v ->
     IOScope.finish self w
     = Ok ((IOBytesDelta.mk (IOScope.begin_ self) (wrap64 v),
            IOScope_finished self
              (IOBytesDelta.mk (IOScope.begin_ self) (wrap64 v))),
           push (EvLoad (IOScope.counter_ self)) w)) /\
  (forall self w,
     IOScope.finished_ self = false -> IOScope.counter_ self = 0%N ->
     IOScope.finish self w
     = Ok ((IOBytesDelta.mk (IOScope.begin_ self) (IOScope.begin_ self),
            IOScope_finished self
              (IOBytesDelta.mk (IOScope.begin_ self) (IOScope.begin_ self))),
           w)) /\
  (forall self w,
     IOScope.finished_ self = true ->
     IOScope.finish self w = Ok ((IOScope.last_ self, self), w)) /\
  (forall c l acts w,
     mutex w = false ->
     c = 0%N \/ (is_Some (mem w !! c) /\ keeps_counter c acts) ->
     exists ds w' evs d,
       IOScope.lifetime c l acts w = Ok (ds, w') /\
       trace w' = trace w ++ evs /\
       (reads evs <= 2)%nat /\
       ds = replicate (finishes acts) d) /\
  (forall self f w,
     MultiIOScope.finished_ self = false ->
     MultiIOScope.reader_ self = Some f ->
     MultiIOScope.finish self w
     = Ok ((IOBytesDelta.mk (MultiIOScope.begin_ self) (wrap64 (f (mem w)).1),
            MultiIOScope_finished self
              (IOBytesDelta.mk (MultiIOScope.begin_ self)
                               (wrap64 (f (mem w)).1))),
           push EvCall (set_mem (f (mem w)).2 w))) /\
  (forall self w,
     MultiIOScope.finished_ self = false ->
     MultiIOScope.reader_ self = None ->
     MultiIOScope.finish self w
     = Ok ((IOBytesDelta.mk (MultiIOScope.begin_ self)
                            (MultiIOScope.begin_ self),
            MultiIOScope_finished self
              (IOBytesDelta.mk (MultiIOScope.begin_ self)
                               (MultiIOScope.begin_ self))),
           w)) /\
  (forall self w,
     MultiIOScope.finished_ self = true ->
     MultiIOScope.finish self w = Ok ((MultiIOScope.last_ self, self), w)) /\
  (forall r l acts w,
     mutex w = false ->
     exists ds w' evs d,
       MultiIOScope.lifetime r l acts w = Ok (ds, w') /\
       trace w' = trace w ++ evs /\
       (reads evs <= 2)%nat /\
       ds = replicate (finishes acts) d) /\
  (forall c l v w,
     c <> 0%N -> mem w !! c = Some v ->
     IOScope.ctor c l w
     = Ok (IOScope.mk c l (wrap64 v) false IOBytesDelta.zero,
           push (EvLoad c) w)) /\
  (forall c l pre post v0 v1 w,
     c <> 0%N ->
     mem w !! c = Some v0 ->
     finishes pre = 0%nat ->
     mem_after pre (mem w) !! c = Some v1 ->
     exists w',
       IOScope.lifetime c l (pre ++ Finish :: post) w
       = Ok (replicate (S (finishes post))
               (IOBytesDelta.mk (wrap64 v0) (wrap64 v1)), w') /\
       trace w' = trace w ++ [EvLoad c; EvLoad c]) /\
  (forall f l w,
     MultiIOScope.ctor (Some f) l w
     = Ok (MultiIOScope.mk (Some f) l (wrap64 (f (mem w)).1) false
                           IOBytesDelta.zero,
           push EvCall (set_mem (f (mem w)).2 w))) /\
  (forall f l pre post w,
     finishes pre = 0%nat ->
     exists w',
       MultiIOScope.lifetime (Some f) l (pre ++ Finish :: post) w
       = Ok (replicate (S (finishes post))
               (IOBytesDelta.mk
                  (wrap64 (f (mem w)).1)
                  (wrap64 (f (mem_after pre (f (mem w)).2)).1)), w') /\
       trace w' = trace w ++ [EvCall; EvCall]).
Proof.
  intros E.
  split; [intros; apply (IOScope_finish_first_valid E); assumption|].
  split; [intros; apply (IOScope_finish_first_null E); assumption|].
  split; [intros; apply (IOScope_finish_again E); assumption|].
  split.
  { intros c l acts w Hm V.
    destruct (IOScope_lifetime_spec E c l acts w Hm V)
      as (ds & w' & evs & L & T & R & (d & D & _) & _).
    exists ds, w', evs, d. auto. }
  split; [intros; apply (MultiIOScope_finish_first_some E); assumption|].
  split; [intros; apply (MultiIOScope_finish_first_none E); assumption|].
  split; [intros; apply (MultiIOScope_finish_again E); assumption|].
  split.
  { intros r l acts w Hm.
    destruct (MultiIOScope_lifetime_spec E r l acts w Hm)
      as (ds & w' & evs & L & T & R & (d & D & _) & _).
    exists ds, w', evs, d. auto. }
  split; [intros; apply (IOScope_ctor_valid E); assumption|].
  split.
  { intros c l pre post v0 v1 w C H0 N H1. eexists. split.
    - exact (IOScope_lifetime_first_finish c l pre post v0 v1 w E C H0 N H1).
    - cbn. rewrite <- app_assoc. reflexivity. }
  split; [intros; apply (MultiIOScope_ctor_some E)|].
  intros f l pre post w N. eexists. split.
  - exact (MultiIOScope_lifetime_first_finish f l pre post w E N).
  - cbn. rewrite <- app_assoc. reflexivity.
Qed.

(** C2 — In either build the destructor of an I/O scope leaves the world as
    it is whenever [finish()] was called, the counter or accessor is absent,
    or the label is empty; [finish()] always sets the flag the destructor
    tests and keeps the label; hence a life with a [finish()] in it, or with
    an empty label, or without a source, ends with no insertion into any
    stream. *)
Theorem report_only_when_unfinished_and_labelled {B : Build} :
  (forall self w,
     IOScope.finished_ self = true \/ IOScope.counter_ self = 0%N \/
     IOScope.label_ self = EmptyString ->
     IOScope.dtor self w = Ok (tt, w)) /\
  (forall self w d self' w',
     IOScope.finish self w = Ok ((d, self'), w') ->
     IOScope.finished_ self' = true /\
     IOScope.label_ self' = IOScope.label_ self /\
     IOScope.counter_ self' = IOScope.counter_ self) /\
  (forall c l acts w,
     mutex w = false ->
     c = 0%N \/ (is_Some (mem w !! c) /\ keeps_counter c acts) ->
     exists ds w' evs,
       IOScope.lifetime c l acts w = Ok (ds, w') /\
       trace w' = trace w ++ evs /\
       ((0 < finishes acts)%nat \/ l = EmptyString \/ c = 0%N ->
        writes evs = [])) /\
  (forall self w,
     MultiIOScope.finished_ self = true \/
     MultiIOScope.reader_ self = None \/
     MultiIOScope.label_ self = EmptyString ->
     MultiIOScope.dtor self w = Ok (tt, w)) /\
  (forall self w d self' w',
     MultiIOScope.finish self w = Ok ((d, self'), w') ->
     MultiIOScope.finished_ self' = true /\
     MultiIOScope.label_ self' = MultiIOScope.label_ self /\
     MultiIOScope.reader_ self' = MultiIOScope.reader_ self) /\
  (forall r l acts w,
     mutex w = false ->
     exists ds w' evs,
       MultiIOScope.lifetime r l acts w = Ok (ds, w') /\
       trace w' = trace w ++ evs /\
       ((0 < finishes acts)%nat \/ l = EmptyString \/ r = None ->
        writes evs = [])).
Proof.
  split; [intros; apply IOScope_dtor_quiet; assumption|].
  split.
  { intros self w d self' w' H.
    pose proof (IOScope_finish_marks self w) as M. rewrite H in M. exact M. }
  split; [intros; apply IOScope_lifetime_writes; assumption|].
  split; [intros; apply MultiIOScope_dtor_quiet; assumption|].
  split.
  { intros self w d self' w' H.
    pose proof (MultiIOScope_finish_marks self w) as M. rewrite H in M.
    exact M. }
  intros; apply MultiIOScope_lifetime_writes; assumption.
Qed.

(** C3 — In either build a scope built on a null counter, or on an empty
    accessor, is inert: construction leaves the world as it is and the
    begin snapshot at [0]; [finish()] returns a delta whose end is its
    begin, that is zero bytes, without touching the world; the destructor
    does nothing; and a whole life changes nothing but what the application
    itself did to its memory, every delta returned being the zero one.
    None of these calls can fail. *)
Theorem absent_source_is_inert {B : Build} :
  (forall l w,
     IOScope.ctor 0%N l w = Ok (IOScope.init 0%N l, w) /\
     IOScope.begin_ (IOScope.init 0%N l) = 0) /\
  (forall self w,
     IOScope.counter_ self = 0%N -> IOScope.finished_ self = false ->
     exists d self',
       IOScope.finish self w = Ok ((d, self'), w) /\
       IOBytesDelta.end_ d = IOBytesDelta.begin d /\
       IOBytesDelta.bytes d = 0) /\
  (forall self w,
     IOScope.counter_ self = 0%N -> IOScope.dtor self w = Ok (tt, w)) /\
  (forall l acts w,
     IOScope.lifetime 0%N l acts w
     = Ok (replicate (finishes acts) IOBytesDelta.zero,
           set_mem (mem_after acts (mem w)) w)) /\
  (forall l w,
     MultiIOScope.ctor None l w = Ok (MultiIOScope.init None l, w) /\
     MultiIOScope.begin_ (MultiIOScope.init None l) = 0) /\
  (forall self w,
     MultiIOScope.reader_ self = None ->
     MultiIOScope.finished_ self = false ->
     exists d self',
       MultiIOScope.finish self w = Ok ((d, self'), w) /\
       IOBytesDelta.end_ d = IOBytesDelta.begin d /\
       IOBytesDelta.bytes d = 0) /\
  (forall self w,
     MultiIOScope.reader_ self = None ->
     MultiIOScope.dtor self w = Ok (tt, w)) /\
  (forall l acts w,
     MultiIOScope.lifetime None l acts w
     = Ok (replicate (finishes acts) IOBytesDelta.zero,
           set_mem (mem_after acts (mem w)) w)).
Proof.
  split; [intros; split; [apply IOScope_ctor_null_any | reflexivity]|].
  split; [intros; apply IOScope_finish_null_any; assumption|].
  split; [intros; apply IOScope_dtor_quiet; auto|].
  split; [intros; apply IOScope_lifetime_null|].
  split; [intros; split; [apply MultiIOScope_ctor_none_any | reflexivity]|].
  split; [intros; apply MultiIOScope_finish_none_any; assumption|].
  split; [intros; apply MultiIOScope_dtor_quiet; auto|].
  intros; apply MultiIOScope_lifetime_none.
Qed.

(** C4 — For snapshots [b] and [e] in the range of [uint64_t], [bytes()] is
    [e - b] modulo [2^64]: a value of the same range, [e - b] itself when
    [b <= e] and [e - b + 2^64] when [e < b], never clamped; and [mib()],
    computed as two successive divisions by [1024.0], is the binary64
    quotient of [double(bytes())] by [1048576.0]. *)
Theorem bytes_wraps_and_mib_divides (b e : Z) :
  is_u64 b -> is_u64 e ->
  IOBytesDelta.bytes (IOBytesDelta.mk b e) = (e - b) mod 2 ^ 64 /\
  is_u64 (IOBytesDelta.bytes (IOBytesDelta.mk b e)) /\
  (b <= e -> IOBytesDelta.bytes (IOBytesDelta.mk b e) = e - b) /\
  (e < b -> IOBytesDelta.bytes (IOBytesDelta.mk b e) = e - b + 2 ^ 64) /\
  IOBytesDelta.mib (IOBytesDelta.mk b e)
  = dbl_div (dbl_of_u64 (IOBytesDelta.bytes (IOBytesDelta.mk b e)))
            (dbl_of_Z 1048576).
Proof.
  intros [Lb Ub] [Le Ue]. unfold two64 in *.
  split; [reflexivity|].
  split; [apply wrap64_range|].
  split.
  { intros H. unfold IOBytesDelta.bytes, wrap64, two64. cbn.
    apply Z.mod_small. lia. }
  split.
  { intros H. unfold IOBytesDelta.bytes, wrap64, two64. cbn.
    rewrite <- (Z.mod_add (e - b) 1 (2 ^ 64)) by lia.
    apply Z.mod_small. lia. }
  apply mib_single_division.
Qed.

(** C5 — With instrumentation compiled out, [ms_since] returns [0.0] and
    every call the header offers, and so every program made of such calls,
    leaves the world exactly as it found it: no clock read, no lock, no
    insertion into a stream, no counter read.  [finish()] returns the zero
    delta, [done()] returns nothing, and constructing a scope of any of the
    four types and destroying it at once does the same nothing. *)
Theorem disabled_build_is_inert {B : Build} :
  CHEETAH_ENABLE_PERF = false ->
  (forall start w, ms_since start w = Ok (dbl_zero, w)) /\
  (forall o w, exec o w = Ok (tt, w)) /\
  (forall os w, exec_all os w = Ok (tt, w)) /\
  (forall self w, exists self',
     IOScope.finish self w = Ok ((IOBytesDelta.zero, self'), w)) /\
  (forall self w, exists self',
     MultiIOScope.finish self w = Ok ((IOBytesDelta.zero, self'), w)) /\
  (forall self w, StageTimer.done self w = Ok (tt, w)) /\
  (forall w,
     (forall c l, IOScope.lifetime c l [] w = Ok ([], w)) /\
     (forall r l, MultiIOScope.lifetime r l [] w = Ok ([], w)) /\
     (forall lbl, (self ← ScopedTimer.ctor lbl; ScopedTimer.dtor self) w
                  = Ok (tt, w)) /\
     (forall n pref, StageTimer.lifetime n pref 0 w = Ok (tt, w))).
Proof.
  intros E.
  split; [intros; apply ms_since_off; exact E|].
  split; [intros; apply exec_off; exact E|].
  split; [intros; apply exec_all_off; exact E|].
  split; [intros; eexists; apply IOScope_finish_off; exact E|].
  split; [intros; eexists; apply MultiIOScope_finish_off; exact E|].
  split; [intros self w; apply (exec_off E (OpStageDone self))|].
  intros w. apply construct_destroy_off. exact E.
Qed.

(** C6, as amended — In an enabled build each [done()] of a stage timer
    reads the clock anew, measures from the instant [t0] taken at
    construction and inserts one more total line; nothing is remembered
    between calls.  A whole life, after its header, therefore holds exactly
    as many total lines as there were calls, the [k]-th of them measured by
    the [k]-th clock read after construction, and none when [done()] was
    never called: the destructor, in either build, does nothing. *)
Theorem stage_timer_totals {B : Build} :
  (forall self w, StageTimer.dtor self w = Ok (tt, w)) /\
  (CHEETAH_ENABLE_PERF = true ->
   (forall self w,
      mutex w = false ->
      StageTimer.done self w
      = Ok (tt, after_report w
                  (time_report (cout_fmt w) "TOTAL"
                     (elapsed w (StageTimer.t0 self))))) /\
   (forall nm pref n w,
      mutex w = false ->
      exists w' evs,
        StageTimer.lifetime nm pref n w = Ok (tt, w') /\
        trace w' = trace w
                   ++ stage_header (cout_fmt w) pref (default EmptyString nm)
                   ++ evs /\
        written Cout evs
          = total_lines (clock w) (clock w (clock_reads w))
                        (S (clock_reads w)) n /\
        written Cerr evs = EmptyString /\
        ticks evs = n /\
        length (writes evs) = (4 * n)%nat)).
Proof.
  split; [reflexivity|]. intros E. split.
  - intros. apply StageTimer_done_on; assumption.
  - intros. apply StageTimer_lifetime_on; assumption.
Qed.

(** C7, as amended — In either build, whatever a call inserts into a
    console stream it inserts between locking and unlocking the one mutex
    of [cout_mutex()], and it returns with the mutex free; so does any
    program made of such calls.  The stream is [std::cout] for
    [print_line] and the two timers and [std::cerr] for the reports of the
    two I/O scope destructors.  A call fails only on a dangling counter
    pointer. *)
Theorem every_insertion_holds_the_lock {B : Build} :
  (forall o w,
     mutex w = false ->
     match exec o w with
     | Ok (_, w') =>
         exists evs,
           trace w' = trace w ++ evs /\
           guarded false evs = true /\
           held_after false evs = false /\
           mutex w' = false /\
           Forall (fun p => p.1 = stream_of_op o) (writes evs)
     | Fault f => exists a, f = BadLoad a
     end) /\
  (forall os w w',
     mutex w = false -> exec_all os w = Ok (tt, w') ->
     exists evs,
       trace w' = trace w ++ evs /\
       guarded false evs = true /\
       held_after false evs = false /\
       mutex w' = false).
Proof.
  split; [intros; apply exec_trace; assumption|].
  intros; eapply exec_all_guarded; eassumption.
Qed.

(** C8, as amended — In an enabled build, with the mutex free and no field
    width pending on [std::cout], each [done()] inserts exactly the text
    [  [time] TOTAL], 23 spaces that fill the field of width 28, the
    elapsed milliseconds and [ ms\n]: nothing stands between the padded
    field and the number. *)
Theorem stage_total_line {B : Build} self w :
  CHEETAH_ENABLE_PERF = true -> mutex w = false ->
  width (cout_fmt w) = 0%nat ->
  exists w' evs,
    StageTimer.done self w = Ok (tt, w') /\
    trace w' = trace w ++ evs /\
    written Cout evs
    = "  [time] TOTAL" +:+ spaces 23
      +:+ fmt_double (elapsed w (StageTimer.t0 self)) +:+ " ms" +:+ nl /\
    written Cerr evs = EmptyString /\
    guarded false evs = true.
Proof.
  intros E Hm Hw. do 2 eexists.
  split; [apply StageTimer_done_on; assumption|].
  split; [reflexivity|].
  split; [rewrite written_time_report by exact Hw; reflexivity|].
  split; reflexivity.
Qed.

(** C9, as amended — In an enabled build, with the mutex free and no field
    width pending on [std::cout], the destructor of a scoped timer, whatever
    the timer's state, reads the clock once and inserts exactly one line:
    [  [time] ], the label left-justified in a field of at least 28
    characters, then at once the elapsed milliseconds since construction and
    [ ms\n].  No separator follows the field: a label of 28 characters or
    more runs into the number.  The constructor only reads the clock. *)
Theorem scoped_timer_report {B : Build} self w :
  CHEETAH_ENABLE_PERF = true -> mutex w = false ->
  width (cout_fmt w) = 0%nat ->
  (forall lbl, ScopedTimer.ctor lbl w
     = Ok (ScopedTimer.mk lbl (clock w (clock_reads w)),
           push EvNow (tick w))) /\
  exists w' evs,
    ScopedTimer.dtor self w = Ok (tt, w') /\
    trace w' = trace w ++ evs /\
    written Cout evs
    = "  [time] "
      +:+ ljust 28 (default EmptyString (ScopedTimer.label self))
      +:+ fmt_double (elapsed w (ScopedTimer.t0 self)) +:+ " ms" +:+ nl /\
    written Cerr evs = EmptyString /\
    ticks evs = 1%nat /\
    guarded false evs = true.
Proof.
  intros E Hm Hw.
  split; [intros; apply ScopedTimer_ctor_on; exact E|].
  do 2 eexists.
  split; [apply ScopedTimer_dtor_on; assumption|].
  split; [reflexivity|].
  split; [rewrite written_time_report by exact Hw; reflexivity|].
  repeat split; reflexivity.
Qed.

(** C10 — A scoped timer whose label is the null pointer is destroyed, and a
    stage timer whose name is the null pointer is constructed, exactly as
    if the pointer were to the empty string: same result, same world, in
    either build and from any world; neither call ever dereferences a null
    pointer.  In an enabled build with the mutex free the report and the
    header are the ones of the empty label and the empty name. *)
Theorem null_label_prints_as_empty {B : Build} :
  (forall t0 w,
     ScopedTimer.dtor (ScopedTimer.mk None t0) w
     = ScopedTimer.dtor (ScopedTimer.mk (Some EmptyString) t0) w /\
     ScopedTimer.dtor (ScopedTimer.mk None t0) w <> Fault NullDeref) /\
  (forall pref w,
     match StageTimer.ctor None pref w,
           StageTimer.ctor (Some EmptyString) pref w with
     | Ok (self1, w1), Ok (self2, w2) =>
         w1 = w2 /\ StageTimer.name self1 = None /\
         StageTimer.t0 self1 = StageTimer.t0 self2 /\
         StageTimer.prefix self1 = StageTimer.prefix self2
     | Fault f1, Fault f2 => f1 = f2 /\ f1 <> NullDeref
     | _, _ => False
     end) /\
  (CHEETAH_ENABLE_PERF = true ->
   forall t0 pref w,
     mutex w = false ->
     ScopedTimer.dtor (ScopedTimer.mk None t0) w
     = Ok (tt, after_report w
                 (time_report (cout_fmt w) EmptyString (elapsed w t0))) /\
     StageTimer.ctor None pref w
     = Ok (StageTimer.mk pref None (clock w (clock_reads w)),
           mk_world (mem w) (clock w) (S (clock_reads w)) false
                    (mk_fmt 0 (adjust_left (cout_fmt w))) (cerr_fmt w)
                    (trace w ++ stage_header (cout_fmt w) pref EmptyString))).
Proof.
  split.
  { intros t0 w. split; [reflexivity|].
    destruct w as [m c r mx fo fe tr].
    run_call; repeat (split_test; run_call); discriminate. }
  split.
  { intros pref w. destruct w as [m c r mx fo fe tr].
    run_call; repeat (split_test; run_call);
      repeat split; try reflexivity; discriminate. }
  intros E t0 pref w Hm. split.
  - apply (ScopedTimer_dtor_on E (ScopedTimer.mk None t0)). exact Hm.
  - apply (StageTimer_ctor_on E None). exact Hm.
Qed.

(** * The claims at sample inputs *)

Lemma sample_script_keeps_counter : keeps_counter 1%N sample_script.
Proof.
  intros f [H|[H|[H|[]]]]; try discriminate H.
  injection H as <-. intros m _. rewrite lookup_insert_eq. eauto.
Defined.

Lemma finish_is_idempotent_witness :
  @CHEETAH_ENABLE_PERF build_on = true /\
  (mutex w0 = false /\
   (is_Some (mem w0 !! 1%N) /\ keeps_counter 1%N sample_script) /\
   exists ds w' evs d,
     IOScope.lifetime (B:=build_on) 1%N "io" sample_script w0
     = Ok (ds, w') /\
     trace w' = trace w0 ++ evs /\
     (reads evs <= 2)%nat /\
     ds = replicate (finishes sample_script) d) /\
  (1%N <> 0%N /\
   mem w0 !! 1%N = Some 1000 /\
   finishes [bump 1 1048576] = 0%nat /\
   mem_after [bump 1 1048576] (mem w0) !! 1%N = Some 1049576 /\
   exists w',
     IOScope.lifetime (B:=build_on) 1%N "io"
       ([bump 1 1048576] ++ Finish :: [bump 1 5; Finish]) w0
     = Ok ([IOBytesDelta.mk 1000 1049576; IOBytesDelta.mk 1000 1049576],
           w') /\
     trace w' = trace w0 ++ [EvLoad 1%N; EvLoad 1%N]) /\
  (finishes [bump 1 300; bump 2 700] = 0%nat /\
   exists w',
     MultiIOScope.lifetime (B:=build_on) sum_reader "sum"
       ([bump 1 300; bump 2 700] ++ Finish :: [bump 2 9; Finish]) w0
     = Ok ([IOBytesDelta.mk 1700 2700; IOBytesDelta.mk 1700 2700], w') /\
     trace w' = trace w0 ++ [EvCall; EvCall]).
Proof.
  assert (is_Some (mem w0 !! 1%N) /\ keeps_counter 1%N sample_script) as V.
  { split; [exists 1000; reflexivity | exact sample_script_keeps_counter]. }
  assert (1%N <> 0%N) as C by discriminate.
  assert (mem_after [bump 1 1048576] (mem w0) !! 1%N = Some 1049576) as H1
    by (vm_compute; reflexivity).
  destruct (finish_is_idempotent (B:=build_on) eq_refl)
    as (_ & _ & _ & L & _ & _ & _ & _ & _ & F & _ & G).
  split; [reflexivity|]. split; [|split].
  - split; [reflexivity|]. split; [exact V|].
    exact (L 1%N "io" sample_script w0 eq_refl (or_intror V)).
  - split; [exact C|]. split; [reflexivity|]. split; [reflexivity|].
    split; [exact H1|].
    exact (F 1%N "io" [bump 1 1048576] [bump 1 5; Finish] 1000 1049576 w0
             C eq_refl eq_refl H1).
  - split; [reflexivity|].
    exact (G (fun m => (default 0 (m !! 1%N) + default 0 (m !! 2%N), m))
             "sum" [bump 1 300; bump 2 700] [bump 2 9; Finish] w0 eq_refl).
Defined.

Lemma report_only_when_unfinished_and_labelled_witness :
  mutex w0 = false /\
  (is_Some (mem w0 !! 1%N) /\ keeps_counter 1%N sample_script) /\
  exists ds w' evs,
    IOScope.lifetime (B:=build_on) 1%N "io" sample_script w0 = Ok (ds, w') /\
    trace w' = trace w0 ++ evs /\
    ((0 < finishes sample_script)%nat \/ "io" = EmptyString \/ 1%N = 0%N ->
     writes evs = []).
Proof.
  assert (is_Some (mem w0 !! 1%N) /\ keeps_counter 1%N sample_script) as V.
  { split; [exists 1000; reflexivity | exact sample_script_keeps_counter]. }
  split; [reflexivity|]. split; [exact V|].
  exact (proj1 (proj2 (proj2
           (report_only_when_unfinished_and_labelled (B:=build_on))))
           1%N "io" sample_script w0 eq_refl (or_intror V)).
Defined.

Lemma absent_source_is_inert_witness :
  IOScope.counter_ IOScope.default = 0%N /\
  IOScope.finished_ IOScope.default = false /\
  exists d self',
    IOScope.finish (B:=build_on) IOScope.default w0 = Ok ((d, self'), w0) /\
    IOBytesDelta.end_ d = IOBytesDelta.begin d /\
    IOBytesDelta.bytes d = 0.
Proof.
  split; [reflexivity|]. split; [reflexivity|].
  exact (proj1 (proj2 (absent_source_is_inert (B:=build_on)))
           IOScope.default w0 eq_refl eq_refl).
Defined.

Lemma bytes_wraps_and_mib_divides_witness :
  is_u64 1 /\ is_u64 0 /\
  IOBytesDelta.bytes (IOBytesDelta.mk 1 0) = (0 - 1) mod 2 ^ 64 /\
  is_u64 (IOBytesDelta.bytes (IOBytesDelta.mk 1 0)) /\
  (1 <= 0 -> IOBytesDelta.bytes (IOBytesDelta.mk 1 0) = 0 - 1) /\
  (0 < 1 -> IOBytesDelta.bytes (IOBytesDelta.mk 1 0) = 0 - 1 + 2 ^ 64) /\
  IOBytesDelta.mib (IOBytesDelta.mk 1 0)
  = dbl_div (dbl_of_u64 (IOBytesDelta.bytes (IOBytesDelta.mk 1 0)))
            (dbl_of_Z 1048576).
Proof.
  assert (is_u64 1) as H1 by (unfold is_u64, two64; lia).
  assert (is_u64 0) as H0 by (unfold is_u64, two64; lia).
  split; [exact H1|]. split; [exact H0|].
  exact (bytes_wraps_and_mib_divides 1 0 H1 H0).
Defined.

Lemma disabled_build_is_inert_witness :
  @CHEETAH_ENABLE_PERF build_off = false /\
  exec_all (B:=build_off)
    [OpStageCtor (Some "stage") "pre";
     OpScopedDtor (ScopedTimer.mk (Some "fft") 0);
     OpIODtor sample_scope;
     OpStageDone (StageTimer.mk "pre" (Some "stage") 0)] w0
  = Ok (tt, w0).
Proof.
  split; [reflexivity|].
  exact (proj1 (proj2 (proj2
           (disabled_build_is_inert (B:=build_off) eq_refl))) _ w0).
Defined.

Lemma stage_timer_totals_witness :
  @CHEETAH_ENABLE_PERF build_on = true /\
  mutex w0 = false /\
  exists w' evs,
    StageTimer.lifetime (B:=build_on) (Some "stage") "pre" 2 w0
    = Ok (tt, w') /\
    trace w' = trace w0
               ++ stage_header (cout_fmt w0) "pre"
                    (default EmptyString (Some "stage"))
               ++ evs /\
    written Cout evs
      = total_lines (B:=build_on) (clock w0) (clock w0 (clock_reads w0))
                    (S (clock_reads w0)) 2 /\
    written Cerr evs = EmptyString /\
    ticks evs = 2%nat /\
    length (writes evs) = (4 * 2)%nat.
Proof.
  split; [reflexivity|]. split; [reflexivity|].
  exact (proj2 (proj2 (stage_timer_totals (B:=build_on)) eq_refl)
           (Some "stage") "pre" 2%nat w0 eq_refl).
Defined.

Lemma every_insertion_holds_the_lock_witness :
  mutex w0 = false /\
  match exec (B:=build_on) (OpIODtor sample_scope) w0 with
  | Ok (_, w') =>
      exists evs,
        trace w' = trace w0 ++ evs /\
        guarded false evs = true /\
        held_after false evs = false /\
        mutex w' = false /\
        Forall (fun p => p.1 = stream_of_op (OpIODtor sample_scope))
               (writes evs)
  | Fault f => exists a, f = BadLoad a
  end.
Proof.
  split; [reflexivity|].
  exact (proj1 (every_insertion_holds_the_lock (B:=build_on))
           (OpIODtor sample_scope) w0 eq_refl).
Defined.

Lemma stage_total_line_witness :
  @CHEETAH_ENABLE_PERF build_on = true /\
  mutex w0 = false /\
  width (cout_fmt w0) = 0%nat /\
  exists w' evs,
    StageTimer.done (B:=build_on) (StageTimer.mk "pre" (Some "stage") 0) w0
    = Ok (tt, w') /\
    trace w' = trace w0 ++ evs /\
    written Cout evs
    = "  [time] TOTAL" +:+ spaces 23
      +:+ @fmt_double build_on (elapsed (B:=build_on) w0 0)
      +:+ " ms" +:+ nl /\
    written Cerr evs = EmptyString /\
    guarded false evs = true.
Proof.
  split; [reflexivity|]. split; [reflexivity|]. split; [reflexivity|].
  exact (stage_total_line (B:=build_on)
           (StageTimer.mk "pre" (Some "stage") 0) w0 eq_refl eq_refl eq_refl).
Defined.

Lemma scoped_timer_report_witness :
  @CHEETAH_ENABLE_PERF build_on = true /\
  mutex w0 = false /\
  width (cout_fmt w0) = 0%nat /\
  exists w' evs,
    ScopedTimer.dtor (B:=build_on) (ScopedTimer.mk (Some label28) 0) w0
    = Ok (tt, w') /\
    trace w' = trace w0 ++ evs /\
    written Cout evs
    = "  [time] " +:+ ljust 28 label28
      +:+ @fmt_double build_on (elapsed (B:=build_on) w0 0)
      +:+ " ms" +:+ nl /\
    written Cerr evs = EmptyString /\
    ticks evs = 1%nat /\
    guarded false evs = true.
Proof.
  split; [reflexivity|]. split; [reflexivity|]. split; [reflexivity|].
  exact (proj2 (scoped_timer_report (B:=build_on)
                  (ScopedTimer.mk (Some label28) 0) w0
                  eq_refl eq_refl eq_refl)).
Defined.

Lemma null_label_prints_as_empty_witness :
  @CHEETAH_ENABLE_PERF build_on = true /\
  mutex w0 = false /\
  ScopedTimer.dtor (B:=build_on) (ScopedTimer.mk None 0) w0
  = Ok (tt, after_report w0
              (time_report (B:=build_on) (cout_fmt w0) EmptyString
                 (elapsed (B:=build_on) w0 0))) /\
  StageTimer.ctor (B:=build_on) None "pre" w0
  = Ok (StageTimer.mk "pre" None (clock w0 (clock_reads w0)),
        mk_world (mem w0) (clock w0) (S (clock_reads w0)) false
                 (mk_fmt 0 (adjust_left (cout_fmt w0))) (cerr_fmt w0)
                 (trace w0 ++ stage_header (cout_fmt w0) "pre" EmptyString)).
Proof.
  split; [reflexivity|]. split; [reflexivity|].
  exact (proj2 (proj2 (null_label_prints_as_empty (B:=build_on)))
           eq_refl 0 "pre" w0 eq_refl).
Defined.

(** * Where the code departs from the documented text *)

(** C6 — With instrumentation compiled out [done()] inserts no line and
    reads no clock, however often it is called. *)
Lemma stage_done_is_silent_when_disabled :
  StageTimer.lifetime (B:=build_off) (Some "stage") "pre" 2 w0 = Ok (tt, w0)
  /\ StageTimer.done (B:=build_off) (StageTimer.mk "pre" (Some "stage") 0) w0
     = Ok (tt, w0)
  /\ writes (trace w0) = [] /\ ticks (trace w0) = 0%nat.
Proof. repeat split; reflexivity. Qed.

(** C7 — The reports of the I/O scopes do not reach the stream [print_line]
    writes to: [print_line] inserts into [std::cout], the destructor of a
    labelled, unfinished scope into [std::cerr], seven times. *)
Lemma io_report_goes_to_cerr :
  exists w1 w2,
    exec (B:=build_on) (OpPrintLine "x") w0 = Ok (tt, w1) /\
    map fst (writes (trace w1)) = [Cout] /\
    exec (B:=build_on) (OpIODtor sample_scope) w0 = Ok (tt, w2) /\
    map fst (writes (trace w2)) = [Cerr; Cerr; Cerr; Cerr; Cerr; Cerr; Cerr].
Proof.
  do 2 eexists.
  split; [vm_compute; reflexivity|]. split; [reflexivity|].
  split; [vm_compute; reflexivity|]. reflexivity.
Qed.

(** C8 — The total line has no six spaces after the padded field: 5 ms
    after the start the line is [  [time] TOTAL], 23 spaces and [5 ms\n],
    which is not the documented text. *)
Lemma stage_total_line_differs :
  exists w' evs,
    StageTimer.done (B:=build_on) (StageTimer.mk "pre" (Some "stage") 0) w0
    = Ok (tt, w') /\
    trace w' = trace w0 ++ evs /\
    written Cout evs
    = "  [time] TOTAL                       5 ms" +:+ nl /\
    written Cout evs
    <> documented_total_line (B:=build_on) (elapsed (B:=build_on) w0 0).
Proof.
  do 2 eexists.
  split; [vm_compute; reflexivity|]. split; [reflexivity|].
  split; [vm_compute; reflexivity|].
  vm_compute. discriminate.
Qed.

(** C9 — With a label of 28 characters nothing separates the label from the
    number: 5 ms after the start the line is [  [time] ], the label, and
    [5 ms\n], which is not the documented text. *)
Lemma scoped_timer_line_differs :
  exists w' evs,
    ScopedTimer.dtor (B:=build_on) (ScopedTimer.mk (Some label28) 0) w0
    = Ok (tt, w') /\
    trace w' = trace w0 ++ evs /\
    written Cout evs
    = "  [time] abcdefghijklmnopqrstuvwxyzab5 ms" +:+ nl /\
    written Cout evs
    <> documented_scoped_line (B:=build_on) label28
         (elapsed (B:=build_on) w0 0).
Proof.
  do 2 eexists.
  split; [vm_compute; reflexivity|]. split; [reflexivity|].
  split; [vm_compute; reflexivity|].
  vm_compute. discriminate.
Qed.

(** * The scenarios of the specification, run *)

(** A counter starts at 1000 and reads 1048576 + 1000 after the measured
    work: [finish()] reports 1048576 bytes, that is 1.0 MiB. *)
Example single_counter_scenario :
  exists w',
    IOScope.lifetime (B:=build_on) 1%N "io" [bump 1 1048576; Finish] w0
    = Ok ([IOBytesDelta.mk 1000 1049576], w') /\
    trace w' = [EvLoad 1%N; EvLoad 1%N] /\
    IOBytesDelta.bytes (IOBytesDelta.mk 1000 1049576) = 1048576 /\
    IOBytesDelta.mib (IOBytesDelta.mk 1000 1049576) = dbl_of_Z 1.
Proof.
  eexists. split; [vm_compute; reflexivity|].
  repeat split; vm_compute; reflexivity.
Qed.

(** An accessor sums two counters, 500 and 700 at construction, 900 and
    1300 at finalisation: [finish()] reports 1000 bytes. *)
Example aggregated_scenario :
  exists w',
    MultiIOScope.lifetime (B:=build_on) sum_reader "sum"
      [App (fun m => <[1%N := 900]> (<[2%N := 1300]> m)); Finish]
      (set_mem (<[1%N := 500]> (<[2%N := 700]> ∅)) w0)
    = Ok ([IOBytesDelta.mk 1200 2200], w') /\
    trace w' = [EvCall; EvCall] /\
    IOBytesDelta.bytes (IOBytesDelta.mk 1200 2200) = 1000.
Proof.
  eexists. split; [vm_compute; reflexivity|].
  repeat split; vm_compute; reflexivity.
Qed.

(** A labelled scope destroyed without [finish()] reports on [std::cerr],
    under the lock. *)
Example implicit_report_scenario :
  exists w',
    IOScope.lifetime (B:=build_on) 1%N "io" [bump 1 1048576] w0
    = Ok ([], w') /\
    trace w'
    = [EvLoad 1%N; EvLoad 1%N; EvLock;
       EvWrite Cerr "[io] "; EvWrite Cerr "io"; EvWrite Cerr ": ";
       EvWrite Cerr "1048576"; EvWrite Cerr " B (";
       EvWrite Cerr "1"; EvWrite Cerr (" MiB)" +:+ nl); EvUnlock].
Proof. eexists. split; vm_compute; reflexivity. Qed.

(** A scoped timer around a region that takes 5 ms. *)
Example sample_scoped_timer :
  (self ← ScopedTimer.ctor (B:=build_on) (Some "fft");
   ScopedTimer.dtor (B:=build_on) self) w0
  = Ok (tt, mk_world (mem w0) (clock w0) 2 false (mk_fmt 0 true) fmt_default
      [EvNow; EvLock; EvWrite Cout "  [time] ";
       EvWrite Cout "fft                         "; EvNow;
       EvWrite Cout "5"; EvWrite Cout (" ms" +:+ nl); EvUnlock]).
Proof. vm_compute. reflexivity. Qed.

(** * Further properties of the code *)

(** ** The implicit report and the header, to the letter *)

Lemma written_io_report {B : Build} f l d :
  width f = 0%nat ->
  written Cerr (io_report f l d) = io_line l d /\
  written Cout (io_report f l d) = EmptyString.
Proof.
  intros W. unfold io_report, io_line. cbn.
  rewrite !decide_True by reflexivity.
  rewrite !decide_False by discriminate.
  rewrite pad_no_width by exact W.
  rewrite append_empty_r. split; reflexivity.
Qed.

Lemma written_stage_header f pref name :
  width f = 0%nat ->
  written Cout (stage_header f pref name) = header_text pref name /\
  written Cerr (stage_header f pref name) = EmptyString.
Proof.
  intros W. unfold stage_header, header_text. cbn.
  rewrite !decide_True by reflexivity.
  rewrite !decide_False by discriminate.
  rewrite pad_no_width by exact W.
  rewrite append_empty_r. split; reflexivity.
Qed.

(** X1 — In an enabled build the destructor of a single-counter scope that
    was not finished, has a counter and a label, reads the counter once,
    before it takes the mutex, and inserts into [std::cerr], under the
    mutex, exactly [[io] <label>: <bytes> B (<mib> MiB)\n] for the delta
    from the begin snapshot to the value just read; nothing goes to
    [std::cout], the clock is not read and the counter is not written. *)
Theorem io_scope_implicit_report {B : Build} self v w :
  CHEETAH_ENABLE_PERF = true ->
  IOScope.finished_ self = false ->
  IOScope.counter_ self <> 0%N ->
  IOScope.label_ self <> EmptyString ->
  mem w !! IOScope.counter_ self = Some v ->
  mutex w = false -> width (cerr_fmt w) = 0%nat ->
  exists w' evs,
    IOScope.dtor self w = Ok (tt, w') /\
    trace w' = trace w ++ EvLoad (IOScope.counter_ self) :: EvLock :: evs /\
    written Cerr evs
    = io_line (IOScope.label_ self)
        (IOBytesDelta.mk (IOScope.begin_ self) (wrap64 v)) /\
    written Cout evs = EmptyString /\
    reads evs = 0%nat /\ ticks evs = 0%nat /\
    guarded true evs = true /\
    mutex w' = false /\ mem w' = mem w.
Proof.
  intros E F C L Hv Hm W.
  destruct (IOScope_dtor_reports E self v w) as (w' & D & T & Mx & Mm);
    [|exact Hv|exact Hm|].
  { unfold IOScope_reports. rewrite F, (nonnull_true _ C).
    destruct (IOScope.label_ self); [contradiction | reflexivity]. }
  destruct (written_io_report (cerr_fmt w) (IOScope.label_ self)
              (IOBytesDelta.mk (IOScope.begin_ self) (wrap64 v)) W)
    as [We Wo].
  exists w'. eexists. split; [exact D|]. split; [exact T|].
  split; [exact We|]. split; [exact Wo|]. auto.
Qed.

(** X2 — In an enabled build the destructor of an aggregated scope that was
    not finished, has an accessor and a label, calls the accessor once,
    before it takes the mutex, and inserts into [std::cerr], under the
    mutex, exactly [[io] <label>: <bytes> B (<mib> MiB)\n] for the delta
    from the begin snapshot to the value the accessor returned; the memory
    is left as the accessor left it. *)
Theorem multi_scope_implicit_report {B : Build} self f w :
  CHEETAH_ENABLE_PERF = true ->
  MultiIOScope.finished_ self = false ->
  MultiIOScope.reader_ self = Some f ->
  MultiIOScope.label_ self <> EmptyString ->
  mutex w = false -> width (cerr_fmt w) = 0%nat ->
  exists w' evs,
    MultiIOScope.dtor self w = Ok (tt, w') /\
    trace w' = trace w ++ EvCall :: EvLock :: evs /\
    written Cerr evs
    = io_line (MultiIOScope.label_ self)
        (IOBytesDelta.mk (MultiIOScope.begin_ self) (wrap64 (f (mem w)).1)) /\
    written Cout evs = EmptyString /\
    reads evs = 0%nat /\ ticks evs = 0%nat /\
    guarded true evs = true /\
    mutex w' = false /\ mem w' = (f (mem w)).2.
Proof.
  intros E F R L Hm W. unfold MultiIOScope.dtor. rewrite E, F, R.
  destruct (MultiIOScope.label_ self) as [|ch l] eqn:El; [contradiction|].
  cbn [negb andb callable empty].
  erewrite bind_Ok by apply call_Ok.
  unfold lock_guard, lock, unlock, put, mbind, M_bind, mret, M_ret.
  cbn. rewrite Hm. cbn. do 2 eexists. split; [reflexivity|].
  cbn. rewrite <- !app_assoc. cbn. split; [reflexivity|].
  cbn. rewrite !decide_True by reflexivity.
  rewrite !pad_width0, (pad_no_width _ _ W), append_empty_r. auto 10.
Qed.

(** X3 — In an enabled build the constructor of a stage timer reads the
    clock once, before it takes the mutex, keeps that instant as [t0],
    and inserts into [std::cout], under the mutex, a newline, the prefix,
    one space if the prefix is not empty, the name and a newline; with an
    empty prefix the header is the name between two newlines. *)
Theorem stage_timer_header {B : Build} n pref w :
  CHEETAH_ENABLE_PERF = true ->
  mutex w = false -> width (cout_fmt w) = 0%nat ->
  exists self w' evs,
    StageTimer.ctor n pref w = Ok (self, w') /\
    trace w' = trace w ++ EvNow :: EvLock :: evs /\
    StageTimer.t0 self = clock w (clock_reads w) /\
    StageTimer.prefix self = pref /\ StageTimer.name self = n /\
    written Cout evs = header_text pref (default EmptyString n) /\
    (pref = EmptyString ->
     written Cout evs = nl +:+ default EmptyString n +:+ nl) /\
    written Cerr evs = EmptyString /\
    ticks evs = 0%nat /\
    guarded true evs = true /\
    mutex w' = false.
Proof.
  intros E Hm W.
  destruct (written_stage_header (cout_fmt w) pref (default EmptyString n) W)
    as [Wo We].
  do 3 eexists. split; [apply StageTimer_ctor_on; assumption|].
  cbn [trace]. split; [reflexivity|].
  split; [reflexivity|]. split; [reflexivity|]. split; [reflexivity|].
  split; [exact Wo|].
  split; [intros ->; exact Wo|].
  split; [exact We|]. auto.
Qed.

(** ** What a call touches *)

(** X4 — A call that completes leaves the adjustment of [std::cerr] as it
    was; on either stream it leaves no field width pending if it inserted
    into that stream, and the pending width as it was if it did not; on
    [std::cout] the destructor of a scoped timer and [done()] of a stage
    timer, in an enabled build, leave the adjustment at [std::left]
    whatever it was before (the flag is not restored), and every other
    call leaves it as it was. *)
Theorem stream_flags_after_call {B : Build} o w :
  mutex w = false ->
  match exec o w with
  | Ok (_, w') =>
      exists evs,
        trace w' = trace w ++ evs /\
        adjust_left (cerr_fmt w') = adjust_left (cerr_fmt w) /\
        width (cerr_fmt w')
        = (if inserts Cerr evs is 0%nat then width (cerr_fmt w) else 0%nat) /\
        width (cout_fmt w')
        = (if inserts Cout evs is 0%nat then width (cout_fmt w) else 0%nat) /\
        (if CHEETAH_ENABLE_PERF && sets_left o
         then cout_fmt w' = mk_fmt 0 true
         else adjust_left (cout_fmt w') = adjust_left (cout_fmt w))
  | Fault _ => True
  end.
Proof.
  intros Hm. destruct w as [m c r mx fo fe tr]. cbn in Hm. subst mx.
  destruct o as [start|s|cnt l|[cnt l b fin la]|[cnt l b fin la]
                |rd l|[rd l b fin la]|[rd l b fin la]
                |lbl|[lbl t0]|n pref|[pref n t0]|[pref n t0]];
    cbv [sets_left]; run_call; repeat (split_test; run_call);
    try exact I;
    rewrite <- ?app_assoc;
    (first [ exists []; split; [symmetry; apply app_nil_r|]
           | eexists; split; [reflexivity|] ]);
    cbn; repeat split; reflexivity.
Qed.

(** X9 — A call on an I/O scope that completes has not read the clock, and
    a call on a timer, [print_line] and [ms_since] have not read a counter
    or called an accessor; no call reads the clock more than once or its
    source more than once; the clock advances by exactly the reads made;
    and the application's memory is left as it was, except by a call on an
    aggregated scope that invoked its accessor, which leaves it as that one
    invocation of the accessor left it. *)
Theorem call_footprint {B : Build} o w :
  mutex w = false ->
  match exec o w with
  | Ok (_, w') =>
      exists evs,
        trace w' = trace w ++ evs /\
        clock w' = clock w /\
        clock_reads w' = (clock_reads w + ticks evs)%nat /\
        (ticks evs <= 1)%nat /\ (reads evs <= 1)%nat /\
        (io_op o = true -> ticks evs = 0%nat) /\
        (io_op o = false -> reads evs = 0%nat) /\
        (multi_op o = false -> mem w' = mem w) /\
        (multi_op o = true ->
         match accessor o with
         | Some f =>
             (reads evs = 0%nat /\ mem w' = mem w) \/
             (reads evs = 1%nat /\ mem w' = (f (mem w)).2)
         | None => reads evs = 0%nat /\ mem w' = mem w
         end)
  | Fault _ => True
  end.
Proof.
  intros Hm. destruct w as [m c r mx fo fe tr]. cbn in Hm. subst mx.
  destruct o as [start|s|cnt l|[cnt l b fin la]|[cnt l b fin la]
                |rd l|[rd l b fin la]|[rd l b fin la]
                |lbl|[lbl t0]|n pref|[pref n t0]|[pref n t0]];
    cbv [accessor MultiIOScope.reader_];
    run_call; repeat (split_test; run_call); try exact I;
    rewrite <- ?app_assoc;
    (first [ exists []; split; [symmetry; apply app_nil_r|]
           | eexists; split; [reflexivity|] ]);
    cbn; repeat split; intros; try discriminate; try reflexivity;
    try lia;
    first [ left; split; reflexivity
          | right; split; [reflexivity | cbn; congruence] ].
Qed.

(** X11 — Whatever a call that completes inserted, it inserted while it
    held the mutex; it read its counter or called its accessor only while
    it did not hold it; and it read the clock while holding the mutex
    exactly in the destructor of a scoped timer and in [done()] of a stage
    timer, whose elapsed time therefore includes the wait for the mutex,
    whereas the constructors take their start instant without holding
    it. *)
Theorem measurement_and_lock_order {B : Build} o w :
  mutex w = false ->
  match exec o w with
  | Ok (_, w') =>
      exists evs,
        trace w' = trace w ++ evs /\
        writes (inside false evs) = writes evs /\
        reads (inside false evs) = 0%nat /\
        ticks (inside false evs) = (if sets_left o then ticks evs else 0%nat)
  | Fault _ => True
  end.
Proof.
  intros Hm. destruct w as [m c r mx fo fe tr]. cbn in Hm. subst mx.
  destruct o as [start|s|cnt l|[cnt l b fin la]|[cnt l b fin la]
                |rd l|[rd l b fin la]|[rd l b fin la]
                |lbl|[lbl t0]|n pref|[pref n t0]|[pref n t0]];
    cbv [sets_left]; run_call; repeat (split_test; run_call); try exact I;
    rewrite <- ?app_assoc;
    (first [ exists []; split; [symmetry; apply app_nil_r|]
           | eexists; split; [reflexivity|] ]);
    cbn; repeat split; reflexivity.
Qed.

(** X13 — [ms_since], the constructors and [finish()] of both I/O scopes,
    the constructor of a scoped timer and the destructor of a stage timer
    never take the mutex and never insert into a stream: they run to the
    end even while the caller holds the mutex, leave it and both streams
    as they were, and can fail only on a dangling counter pointer. *)
Theorem lock_free_calls {B : Build} o w :
  lock_free o = true ->
  match exec o w with
  | Ok (_, w') =>
      exists evs,
        trace w' = trace w ++ evs /\
        locks evs = 0%nat /\ writes evs = [] /\
        mutex w' = mutex w /\
        cout_fmt w' = cout_fmt w /\ cerr_fmt w' = cerr_fmt w
  | Fault f => exists a, f = BadLoad a
  end.
Proof.
  intros H. destruct w as [m c r mx fo fe tr].
  destruct o as [start|s|cnt l|[cnt l b fin la]|[cnt l b fin la]
                |rd l|[rd l b fin la]|[rd l b fin la]
                |lbl|[lbl t0]|n pref|[pref n t0]|[pref n t0]];
    try discriminate H; clear H;
    run_call; repeat (split_test; run_call);
    first [ rewrite <- ?app_assoc;
            (first [ exists []; split; [symmetry; apply app_nil_r|]
                   | eexists; split; [reflexivity|] ]);
            cbn; repeat split; reflexivity
          | eexists; reflexivity
          | exfalso; subst; cbv in *; congruence ].
Qed.

(** ** What a scope measures *)

(** X5 — In an enabled build a single-counter scope measures from its
    construction to its first [finish()]: if the counter holds [v0] when
    the scope is constructed and [v1] when [finish()] is first called, every
    [finish()] of that life returns the delta from [v0] to [v1], whatever
    the application does afterwards.  The counter is dereferenced at those
    two points only: after the first [finish()] the application may even
    free it, and the destructor neither reads it nor reports. *)
Theorem io_scope_measures_until_first_finish
  {B : Build} c l pre post v0 v1 w :
  CHEETAH_ENABLE_PERF = true ->
  c <> 0%N ->
  mem w !! c = Some v0 ->
  finishes pre = 0%nat ->
  mem_after pre (mem w) !! c = Some v1 ->
  exists w',
    IOScope.lifetime c l (pre ++ Finish :: post) w
    = Ok (replicate (S (finishes post))
            (IOBytesDelta.mk (wrap64 v0) (wrap64 v1)), w') /\
    trace w' = trace w ++ [EvLoad c; EvLoad c] /\
    mem w' = mem_after post (mem_after pre (mem w)) /\
    mutex w' = mutex w.
Proof.
  intros E C H0 N H1. eexists. split.
  - exact (IOScope_lifetime_first_finish c l pre post v0 v1 w E C H0 N H1).
  - cbn. rewrite <- app_assoc. auto.
Qed.

(** X6 — In an enabled build an aggregated scope measures from its
    construction to its first [finish()]: every [finish()] of a life
    returns the delta from what the accessor returned at construction to
    what it returned at the first [finish()]; the accessor is called at
    those two points only, and the memory is what the application and the
    two accessor calls made of it. *)
Theorem multi_scope_measures_until_first_finish
  {B : Build} f l pre post w :
  CHEETAH_ENABLE_PERF = true ->
  finishes pre = 0%nat ->
  exists w',
    MultiIOScope.lifetime (Some f) l (pre ++ Finish :: post) w
    = Ok (replicate (S (finishes post))
            (IOBytesDelta.mk
               (wrap64 (f (mem w)).1)
               (wrap64 (f (mem_after pre (f (mem w)).2)).1)), w') /\
    trace w' = trace w ++ [EvCall; EvCall] /\
    mem w' = mem_after post (f (mem_after pre (f (mem w)).2)).2 /\
    mutex w' = mutex w.
Proof.
  intros E N. eexists. split.
  - exact (MultiIOScope_lifetime_first_finish f l pre post w E N).
  - cbn. rewrite <- app_assoc. auto.
Qed.

(** ** The mebibyte count as a number *)

Lemma iter_xO_value k p :
  Z.pos (Pos.iter xO p k) = Z.pos p * 2 ^ Z.pos k.
Proof.
  induction k as [|k IH] using Pos.peano_ind.
  - cbn. lia.
  - rewrite Pos.iter_succ, Pos2Z.inj_xO, IH, Pos2Z.inj_succ.
    rewrite Z.pow_succ_r by lia. lia.
Qed.

(** The conversion of a positive [uint64_t]: a normal number, and the
    number itself, unrounded, when it is below [2^53]. *)
Lemma dbl_of_u64_positive x :
  is_u64 x -> 0 < x ->
  exists m e,
    dbl_of_u64 x = S754_finite false m e /\
    Z.pos (digits2_pos m) = 53 /\ -52 <= e <= 12 /\
    (x < 2 ^ 53 -> e <= 0 /\ Z.pos m = x * 2 ^ (- e)).
Proof.
  intros [L U] P. unfold two64 in U. destruct x as [|p|p]; [lia| |lia].
  unfold dbl_of_u64, dbl_of_Z, binary_normalize, binary_round.
  pose proof (digits2_bounds p) as [DL DU].
  set (d := Z.pos (digits2_pos p)) in *.
  assert (1 <= d <= 64) as Hd.
  { split; [unfold d; lia|].
    destruct (Z.leb_spec d 64) as [|N]; [assumption|].
    assert (2 ^ 64 <= 2 ^ (d - 1)) by (apply Z.pow_le_mono_r; lia). lia. }
  unfold shl_align.
  replace (fexp dbl_prec dbl_emax (d + 0) - 0) with (d - 53)
    by (unfold fexp, emin, dbl_prec, dbl_emax; lia).
  destruct (d - 53) as [|n|n] eqn:En.
  - exists p, 0. rewrite round_normal by (fold d; lia).
    repeat split; lia.
  - assert (2 ^ 53 <= Z.pos p) as Big.
    { assert (2 ^ 53 <= 2 ^ (d - 1)) by (apply Z.pow_le_mono_r; lia). lia. }
    destruct (dbl_of_u64_normal (Z.pos p)) as [Z|(m & e & Eq & Dm & Re)].
    { unfold is_u64, two64. lia. }
    + exfalso. revert Z.
      unfold dbl_of_u64, dbl_of_Z, binary_normalize, binary_round.
      fold d. unfold shl_align.
      replace (fexp dbl_prec dbl_emax (d + 0) - 0) with (d - 53)
        by (unfold fexp, emin, dbl_prec, dbl_emax; lia).
      rewrite En.
      destruct (iter_shr_1_digits (Pos.to_nat n) p false false)
        as (q & r & s & Eq & Dq); [fold d; lia|].
      fold d in Dq.
      assert (Z.pos (digits2_pos q) = 53) as Dq' by lia.
      unfold binary_round_aux.
      assert (shr_fexp dbl_prec dbl_emax (Z.pos p) 0 loc_Exact
              = (Build_shr_record (Z.pos q) r s, Z.pos n)) as ->.
      { unfold shr_fexp, fexp, emin, dbl_prec, dbl_emax.
        cbn [Zdigits2 shr_record_of_loc]. fold d.
        replace (Z.max (d + 0 - 53) (3 - 1024 - 53) - 0) with (Z.pos n)
          by lia.
        cbn [shr]. rewrite iter_pos_nat, Eq. reflexivity. }
      cbn [shr_m].
      pose proof (digits2_bounds q) as Bq. rewrite Dq' in Bq.
      change (2 ^ (53 - 1)) with 4503599627370496 in Bq.
      change (2 ^ 53) with 9007199254740992 in Bq.
      assert (round_nearest_even (Z.pos q)
                (loc_of_shr_record (Build_shr_record (Z.pos q) r s))
              = Z.pos q
              \/ round_nearest_even (Z.pos q)
                (loc_of_shr_record (Build_shr_record (Z.pos q) r s))
                 = Z.pos (q + 1)) as [->| ->].
      { destruct r, s; cbn [loc_of_shr_record round_nearest_even]; auto.
        destruct (Z.even (Z.pos q)); auto. }
      * rewrite round_tail by (try exact Dq'; lia). discriminate.
      * destruct (Z.eqb_spec (Z.pos (q + 1)) 9007199254740992) as [C|C].
        -- assert ((q + 1)%positive = (2 ^ 53)%positive) as -> by lia.
           rewrite round_tail_carry by lia. discriminate.
        -- rewrite round_tail; [discriminate| |lia].
           apply digits2_unique.
           change (2 ^ (53 - 1)) with 4503599627370496.
           change (2 ^ 53) with 9007199254740992. lia.
    + exists m, e. unfold dbl_of_u64, dbl_of_Z, binary_normalize,
        binary_round, shl_align in Eq. fold d in Eq.
      replace (fexp dbl_prec dbl_emax (d + 0) - 0) with (d - 53) in Eq
        by (unfold fexp, emin, dbl_prec, dbl_emax; lia).
      rewrite En in Eq. split; [exact Eq|].
      split; [exact Dm|]. split; [exact Re|]. intros Small. lia.
  - assert (Z.pos (digits2_pos (Pos.iter xO p n)) = 53) as Dn.
    { rewrite iter_xO_digits. fold d. lia. }
    exists (Pos.iter xO p n), (Z.neg n).
    replace (fexp dbl_prec dbl_emax (d + 0)) with (Z.neg n)
      by (unfold fexp, emin, dbl_prec, dbl_emax; lia).
    rewrite round_normal by (try exact Dn; lia).
    repeat split; try lia.
    rewrite iter_xO_value. reflexivity.
Qed.

Lemma mib_of_positive d :
  0 < IOBytesDelta.bytes d ->
  exists m e,
    dbl_of_u64 (IOBytesDelta.bytes d) = S754_finite false m e /\
    IOBytesDelta.mib d = S754_finite false m (e - 20) /\
    Z.pos (digits2_pos m) = 53 /\ -52 <= e <= 12 /\
    (IOBytesDelta.bytes d < 2 ^ 53 ->
     e <= 0 /\ Z.pos m = IOBytesDelta.bytes d * 2 ^ (- e)).
Proof.
  intros P.
  destruct (dbl_of_u64_positive (IOBytesDelta.bytes d) (wrap64_range _) P)
    as (m & e & E & D & R & X).
  exists m, e. split; [exact E|]. split; [|auto].
  rewrite mib_single_division, E.
  change (dbl_of_Z 1048576) with (S754_finite false (2 ^ 52) (20 - 52)).
  apply div_pow2; [exact D | lia | lia | lia].
Qed.

(** X7 — [mib()] is never a NaN, an infinity, a negative or a subnormal
    number: it is [+0.0] when [bytes()] is zero, and otherwise a positive
    normal binary64 number with an exponent between -72 and -8, that is a
    value of at least [2^-20] and below [2^45]. *)
Theorem mib_is_finite (d : IOBytesDelta.t) :
  (IOBytesDelta.bytes d = 0 -> IOBytesDelta.mib d = dbl_zero) /\
  (IOBytesDelta.bytes d <> 0 ->
   exists m e,
     IOBytesDelta.mib d = S754_finite false m e /\
     Z.pos (digits2_pos m) = 53 /\ -72 <= e <= -8).
Proof.
  split.
  - intros Z. unfold IOBytesDelta.mib. rewrite Z. reflexivity.
  - intros NZ. pose proof (wrap64_range
      (IOBytesDelta.end_ d - IOBytesDelta.begin d)) as [L _].
    fold (IOBytesDelta.bytes d) in L.
    destruct (mib_of_positive d ltac:(lia)) as (m & e & _ & M & D & R & _).
    exists m, (e - 20). split; [exact M|]. split; [exact D | lia].
Qed.

(** X8 — For a byte count below [2^53] (8 PiB) [mib()] is exact: neither the
    conversion to [double] nor the two divisions round, and the result
    [m * 2^e] is [bytes() / 2^20] to the last bit. *)
Theorem mib_is_exact_below_2_53 (d : IOBytesDelta.t) :
  0 < IOBytesDelta.bytes d -> IOBytesDelta.bytes d < 2 ^ 53 ->
  exists m e,
    IOBytesDelta.mib d = S754_finite false m e /\
    e <= -20 /\
    Z.pos m = IOBytesDelta.bytes d * 2 ^ (- e - 20).
Proof.
  intros P S.
  destruct (mib_of_positive d P) as (m & e & _ & M & _ & _ & X).
  destruct (X S) as [Le V].
  exists m, (e - 20). split; [exact M|]. split; [lia|].
  rewrite V. f_equal. f_equal. lia.
Qed.

(** ** How calls compose *)

Lemma print_line_on {B : Build} s w :
  CHEETAH_ENABLE_PERF = true -> mutex w = false ->
  print_line s w
  = Ok (tt, mk_world (mem w) (clock w) (clock_reads w) false
              (mk_fmt 0 (adjust_left (cout_fmt w))) (cerr_fmt w)
              (trace w ++ [EvLock; EvWrite Cout (pad (cout_fmt w) s);
                           EvUnlock])).
Proof.
  intros E Hm. destruct w as [m c r mx fo fe tr]. cbn in Hm. subst mx.
  unfold print_line. rewrite E. run_world.
  rewrite <- !app_assoc. reflexivity.
Qed.

(** X12 — In an enabled build consecutive calls of [print_line] put their
    texts on [std::cout] one after the other, in call order and with
    nothing added, each call taking and releasing the mutex once; nothing
    goes to [std::cerr] and the clock is not read. *)
Theorem print_lines_concatenate {B : Build} ss w :
  CHEETAH_ENABLE_PERF = true ->
  mutex w = false -> width (cout_fmt w) = 0%nat ->
  exists w' evs,
    exec_all (map OpPrintLine ss) w = Ok (tt, w') /\
    trace w' = trace w ++ evs /\
    written Cout evs = concat_lines ss /\
    written Cerr evs = EmptyString /\
    locks evs = length ss /\ ticks evs = 0%nat /\
    mutex w' = false /\ width (cout_fmt w') = 0%nat.
Proof.
  intros E. revert w. induction ss as [|s ss IH]; intros w Hm W.
  - exists w, []. cbn. rewrite app_nil_r. auto 10.
  - cbn [map exec_all exec].
    erewrite bind_Ok by (apply print_line_on; assumption).
    set (w1 := mk_world _ _ _ _ _ _ _).
    destruct (IH w1) as (w' & evs & X & T & Wo & We & Lk & Tk & Mx & Wd);
      [reflexivity | reflexivity |].
    exists w'. eexists. split; [exact X|].
    split; [rewrite T; unfold w1; cbn [trace]; rewrite <- app_assoc;
            reflexivity|].
    cbn. rewrite !decide_True by reflexivity.
    rewrite (pad_no_width _ _ W), Wo, We, Lk, Tk. auto 10.
Qed.

(** X10 — In an enabled build two nested scoped timers report innermost
    first: the inner line carries the time between the second and the
    third clock read, the outer line the time between the first and the
    fourth, so the outer measure spans the inner timer's construction,
    region and report. *)
Theorem nested_timers_report_inner_first {B : Build} outer inner w :
  CHEETAH_ENABLE_PERF = true ->
  mutex w = false -> width (cout_fmt w) = 0%nat ->
  exists w' evs,
    nested_timers outer inner w = Ok (tt, w') /\
    trace w' = trace w ++ evs /\
    written Cout evs
    = time_line (default EmptyString inner)
        (duration_ms (clock w (2 + clock_reads w)%nat
                      - clock w (1 + clock_reads w)%nat))
      +:+
      time_line (default EmptyString outer)
        (duration_ms (clock w (3 + clock_reads w)%nat
                      - clock w (clock_reads w))) /\
    written Cerr evs = EmptyString /\
    ticks evs = 4%nat /\ locks evs = 2%nat /\
    guarded false evs = true /\ mutex w' = false.
Proof.
  intros E Hm W. destruct w as [m c r mx fo fe tr]. cbn in Hm, W. subst mx.
  destruct fo as [wd ad]. cbn in W. subst wd.
  unfold nested_timers.
  erewrite bind_Ok by (apply ScopedTimer_ctor_on; exact E). cbn beta.
  erewrite bind_Ok by (apply ScopedTimer_ctor_on; exact E). cbn beta.
  erewrite bind_Ok by (apply ScopedTimer_dtor_on; [exact E | reflexivity]).
  rewrite ScopedTimer_dtor_on by (try exact E; reflexivity).
  do 2 eexists. split; [reflexivity|].
  run_world. rewrite <- !app_assoc.
  split; [reflexivity|].
  cbn. rewrite !decide_True by reflexivity.
  rewrite !pad_width0, !append_empty_r.
  unfold time_line. rewrite !append_assoc. auto 10.
Qed.

(** X14 — In an enabled build a labelled single-counter scope on which
    [finish()] is never called reports, when destroyed, the delta from the
    value the counter had at construction to the value it has at
    destruction: the counter is read at those two points, the second time
    just before the mutex is taken. *)
Theorem unfinished_scope_reports_whole_life
  {B : Build} c l acts v0 v1 w :
  CHEETAH_ENABLE_PERF = true ->
  c <> 0%N -> l <> EmptyString ->
  mem w !! c = Some v0 ->
  finishes acts = 0%nat ->
  mem_after acts (mem w) !! c = Some v1 ->
  mutex w = false -> width (cerr_fmt w) = 0%nat ->
  exists w' evs,
    IOScope.lifetime c l acts w = Ok ([], w') /\
    trace w' = trace w ++ EvLoad c :: EvLoad c :: EvLock :: evs /\
    written Cerr evs
    = io_line l (IOBytesDelta.mk (wrap64 v0) (wrap64 v1)) /\
    written Cout evs = EmptyString /\
    reads evs = 0%nat /\
    guarded true evs = true /\
    mutex w' = false /\ mem w' = mem_after acts (mem w).
Proof.
  intros E C L H0 N H1 Hm W. unfold IOScope.lifetime.
  erewrite bind_Ok by (apply (IOScope_ctor_valid E); eassumption).
  cbn beta.
  set (self := IOScope.mk c l (wrap64 v0) false IOBytesDelta.zero).
  assert (IOScope.run self acts (push (EvLoad c) w)
          = Ok (([], self),
                set_mem (mem_after acts (mem w)) (push (EvLoad c) w))) as R.
  { rewrite <- (app_nil_r acts) at 1.
    rewrite IOScope_run_skip by exact N. reflexivity. }
  erewrite bind_Ok by exact R. cbn beta iota.
  destruct (IOScope_dtor_reports E self v1
              (set_mem (mem_after acts (mem w)) (push (EvLoad c) w)))
    as (w' & D & T & Mx & Mm); [|exact H1|exact Hm|].
  { unfold IOScope_reports, self. cbn. rewrite (nonnull_true _ C).
    destruct l; [contradiction | reflexivity]. }
  destruct (written_io_report (cerr_fmt w) l
              (IOBytesDelta.mk (wrap64 v0) (wrap64 v1)) W) as [We Wo].
  erewrite bind_Ok by exact D.
  exists w'. eexists. split; [reflexivity|].
  split; [rewrite T; cbn; rewrite <- app_assoc; reflexivity|].
  split; [exact We|]. split; [exact Wo|]. auto.
Qed.

(** ** The aggregated scope generalises the single-counter scope *)

Lemma writes_as_call evs : writes (map as_call evs) = writes evs.
Proof.
  induction evs as [|e evs IH]; [reflexivity|].
  destruct e; cbn; rewrite ?IH; reflexivity.
Qed.

Lemma with_calls_set_mem m w :
  with_calls (set_mem m w) = set_mem m (with_calls w).
Proof. reflexivity. Qed.

Ltac as_calls :=
  cbv [with_calls as_multi read_counter]; run_call.

Lemma finish_as_multi {B : Build} a w :
  IOScope.counter_ a <> 0%N ->
  match IOScope.finish a w with
  | Ok ((d, a'), w1) =>
      MultiIOScope.finish (as_multi a) (with_calls w)
      = Ok ((d, as_multi a'), with_calls w1)
  | Fault _ => True
  end.
Proof.
  intros C. destruct a as [cnt l b fin la], w as [m c r mx fo fe tr].
  cbn in C. pose proof (nonnull_true _ C) as Hnn.
  as_calls; rewrite ?Hnn;
    repeat (split_test; as_calls; rewrite ?Hnn);
    try exact I; rewrite ?map_app; reflexivity.
Qed.

Lemma dtor_as_multi {B : Build} a w :
  IOScope.counter_ a <> 0%N ->
  match IOScope.dtor a w with
  | Ok (_, w1) =>
      MultiIOScope.dtor (as_multi a) (with_calls w) = Ok (tt, with_calls w1)
  | Fault _ => True
  end.
Proof.
  intros C. destruct a as [cnt l b fin la], w as [m c r mx fo fe tr].
  cbn in C. pose proof (nonnull_true _ C) as Hnn.
  as_calls; rewrite ?Hnn;
    repeat (split_test; as_calls; rewrite ?Hnn);
    try exact I; rewrite ?map_app; reflexivity.
Qed.

Lemma ctor_as_multi {B : Build} c0 l w :
  c0 <> 0%N ->
  match IOScope.ctor c0 l w with
  | Ok (a, w1) =>
      MultiIOScope.ctor (Some (read_counter c0)) l (with_calls w)
      = Ok (as_multi a, with_calls w1) /\ IOScope.counter_ a = c0
  | Fault _ => True
  end.
Proof.
  intros C. destruct w as [m c r mx fo fe tr].
  pose proof (nonnull_true _ C) as Hnn.
  as_calls; rewrite ?Hnn;
    repeat (split_test; as_calls; rewrite ?Hnn);
    try exact I; rewrite ?map_app; split; reflexivity.
Qed.

Lemma run_as_multi {B : Build} a acts w :
  IOScope.counter_ a <> 0%N ->
  match IOScope.run a acts w with
  | Ok ((ds, a'), w1) =>
      MultiIOScope.run (as_multi a) acts (with_calls w)
      = Ok ((ds, as_multi a'), with_calls w1) /\
      IOScope.counter_ a' = IOScope.counter_ a
  | Fault _ => True
  end.
Proof.
  revert a w. induction acts as [|[|f] acts IH]; intros a w C.
  - cbn. split; reflexivity.
  - cbn [IOScope.run MultiIOScope.run].
    pose proof (finish_as_multi a w C) as F.
    pose proof (IOScope_finish_marks a w) as K.
    destruct (IOScope.finish a w) as [[[d a1] w1]|flt] eqn:E1.
    + erewrite (bind_Ok (IOScope.finish a)) by exact E1. cbn beta iota.
      destruct K as (_ & _ & Kc).
      assert (IOScope.counter_ a1 <> 0%N) as C1 by (rewrite Kc; exact C).
      specialize (IH a1 w1 C1).
      destruct (IOScope.run a1 acts w1) as [[[ds a2] w2]|flt] eqn:E2.
      * erewrite (bind_Ok (IOScope.run a1 acts)) by exact E2.
        cbn beta iota. destruct IH as [R Kc2].
        erewrite bind_Ok by exact F. cbn beta iota.
        erewrite bind_Ok by exact R. cbn beta iota.
        split; [reflexivity | congruence].
      * unfold mbind at 1, M_bind at 1. rewrite E2. exact I.
    + unfold mbind at 1, M_bind at 1. rewrite E1. exact I.
  - cbn [IOScope.run MultiIOScope.run].
    erewrite !bind_Ok by apply app_Ok.
    rewrite <- with_calls_set_mem. apply IH. exact C.
Qed.

(** X15 — An aggregated scope whose accessor reads one counter behaves as
    the single-counter scope on that counter: whenever a life of the
    single-counter scope runs to its end, the same life of the aggregated
    scope returns the same deltas and leaves the same memory, clock, mutex
    and streams, with the same insertions in the same order; the traces
    differ only in that counter reads appear as accessor calls. *)
Theorem multi_scope_generalises_io_scope {B : Build} c l acts w :
  c <> 0%N ->
  match IOScope.lifetime c l acts w with
  | Ok (ds, w1) =>
      MultiIOScope.lifetime (Some (read_counter c)) l acts (with_calls w)
      = Ok (ds, with_calls w1) /\
      writes (trace (with_calls w1)) = writes (trace w1)
  | Fault _ => True
  end.
Proof.
  intros C. unfold IOScope.lifetime, MultiIOScope.lifetime.
  pose proof (ctor_as_multi c l w C) as K.
  destruct (IOScope.ctor c l w) as [[a w1]|flt] eqn:E1;
    [|unfold mbind at 1, M_bind at 1; rewrite E1; exact I].
  erewrite (bind_Ok (IOScope.ctor c l)) by exact E1. cbn beta.
  destruct K as [K Kc].
  assert (IOScope.counter_ a <> 0%N) as Ca by (rewrite Kc; exact C).
  pose proof (run_as_multi a acts w1 Ca) as R.
  destruct (IOScope.run a acts w1) as [[[ds a2] w2]|flt] eqn:E2;
    [|unfold mbind at 1, M_bind at 1; rewrite E2; exact I].
  erewrite (bind_Ok (IOScope.run a acts)) by exact E2. cbn beta iota.
  destruct R as [R Kc2].
  assert (IOScope.counter_ a2 <> 0%N) as C2 by (rewrite Kc2; exact Ca).
  pose proof (dtor_as_multi a2 w2 C2) as D.
  destruct (IOScope.dtor a2 w2) as [[[] w3]|flt] eqn:E3;
    [|unfold mbind at 1, M_bind at 1; rewrite E3; exact I].
  erewrite (bind_Ok (IOScope.dtor a2)) by exact E3.
  cbn. split; [|apply writes_as_call].
  erewrite bind_Ok by exact K. cbn beta.
  erewrite bind_Ok by exact R. cbn beta iota.
  erewrite bind_Ok by exact D. reflexivity.
Qed.

(** * The further properties at sample inputs *)

Lemma io_scope_implicit_report_witness :
  @CHEETAH_ENABLE_PERF build_on = true /\
  IOScope.finished_ sample_scope = false /\
  IOScope.counter_ sample_scope <> 0%N /\
  IOScope.label_ sample_scope <> EmptyString /\
  mem w0 !! IOScope.counter_ sample_scope = Some 1000 /\
  mutex w0 = false /\ width (cerr_fmt w0) = 0%nat /\
  exists w' evs,
    IOScope.dtor (B:=build_on) sample_scope w0 = Ok (tt, w') /\
    trace w' = trace w0 ++ EvLoad (IOScope.counter_ sample_scope)
                 :: EvLock :: evs /\
    written Cerr evs
    = io_line (B:=build_on) (IOScope.label_ sample_scope)
        (IOBytesDelta.mk (IOScope.begin_ sample_scope) (wrap64 1000)) /\
    written Cout evs = EmptyString /\
    reads evs = 0%nat /\ ticks evs = 0%nat /\
    guarded true evs = true /\
    mutex w' = false /\ mem w' = mem w0.
Proof.
  assert (IOScope.counter_ sample_scope <> 0%N) as C by discriminate.
  assert (IOScope.label_ sample_scope <> EmptyString) as L by discriminate.
  split; [reflexivity|]. split; [reflexivity|]. split; [exact C|].
  split; [exact L|]. split; [reflexivity|]. split; [reflexivity|].
  split; [reflexivity|].
  exact (io_scope_implicit_report (B:=build_on) sample_scope 1000 w0
           eq_refl eq_refl C L eq_refl eq_refl eq_refl).
Defined.

Lemma multi_scope_implicit_report_witness :
  @CHEETAH_ENABLE_PERF build_on = true /\
  MultiIOScope.finished_ sample_multi_scope = false /\
  MultiIOScope.reader_ sample_multi_scope = Some sum_counters /\
  MultiIOScope.label_ sample_multi_scope <> EmptyString /\
  mutex w0 = false /\ width (cerr_fmt w0) = 0%nat /\
  exists w' evs,
    MultiIOScope.dtor (B:=build_on) sample_multi_scope w0 = Ok (tt, w') /\
    trace w' = trace w0 ++ EvCall :: EvLock :: evs /\
    written Cerr evs
    = io_line (B:=build_on) (MultiIOScope.label_ sample_multi_scope)
        (IOBytesDelta.mk (MultiIOScope.begin_ sample_multi_scope)
           (wrap64 (sum_counters (mem w0)).1)) /\
    written Cout evs = EmptyString /\
    reads evs = 0%nat /\ ticks evs = 0%nat /\
    guarded true evs = true /\
    mutex w' = false /\ mem w' = (sum_counters (mem w0)).2.
Proof.
  assert (MultiIOScope.label_ sample_multi_scope <> EmptyString) as L
    by discriminate.
  split; [reflexivity|]. split; [reflexivity|]. split; [reflexivity|].
  split; [exact L|]. split; [reflexivity|]. split; [reflexivity|].
  exact (multi_scope_implicit_report (B:=build_on) sample_multi_scope
           sum_counters w0 eq_refl eq_refl eq_refl L eq_refl eq_refl).
Defined.

Lemma stage_timer_header_witness :
  @CHEETAH_ENABLE_PERF build_on = true /\
  mutex w0 = false /\ width (cout_fmt w0) = 0%nat /\
  exists self w' evs,
    StageTimer.ctor (B:=build_on) (Some "stage") "pre" w0 = Ok (self, w') /\
    trace w' = trace w0 ++ EvNow :: EvLock :: evs /\
    StageTimer.t0 self = clock w0 (clock_reads w0) /\
    StageTimer.prefix self = "pre" /\ StageTimer.name self = Some "stage" /\
    written Cout evs = header_text "pre" (default EmptyString (Some "stage")) /\
    ("pre" = EmptyString ->
     written Cout evs
     = nl +:+ default EmptyString (Some "stage") +:+ nl) /\
    written Cerr evs = EmptyString /\
    ticks evs = 0%nat /\
    guarded true evs = true /\
    mutex w' = false.
Proof.
  split; [reflexivity|]. split; [reflexivity|]. split; [reflexivity|].
  exact (stage_timer_header (B:=build_on) (Some "stage") "pre" w0
           eq_refl eq_refl eq_refl).
Defined.

Lemma stream_flags_after_call_witness :
  mutex w_pending = false /\
  exists w' evs,
    exec (B:=build_on) (OpIODtor sample_scope) w_pending = Ok (tt, w') /\
    trace w' = trace w_pending ++ evs /\
    inserts Cerr evs = 7%nat /\ inserts Cout evs = 0%nat /\
    adjust_left (cerr_fmt w') = adjust_left (cerr_fmt w_pending) /\
    width (cerr_fmt w') = 0%nat /\
    width (cout_fmt w') = 20%nat /\
    adjust_left (cout_fmt w') = adjust_left (cout_fmt w_pending).
Proof.
  split; [reflexivity|].
  pose proof (stream_flags_after_call (B:=build_on)
                (OpIODtor sample_scope) w_pending eq_refl) as T.
  destruct (exec (B:=build_on) (OpIODtor sample_scope) w_pending)
    as [[[] w']|flt] eqn:E; [|vm_compute in E; discriminate E].
  destruct T as (evs & Ht & Ha & Wc & Wo & Hl).
  assert (inserts Cerr evs = 7%nat /\ inserts Cout evs = 0%nat) as [Ic Io].
  { vm_compute in E. injection E as <-. cbn in Ht. subst evs.
    split; reflexivity. }
  rewrite Ic in Wc. rewrite Io in Wo.
  exists w', evs. repeat split; assumption.
Defined.

Lemma io_scope_measures_until_first_finish_witness :
  @CHEETAH_ENABLE_PERF build_on = true /\
  1%N <> 0%N /\
  mem w0 !! 1%N = Some 1000 /\
  finishes [bump 1 1048576] = 0%nat /\
  mem_after [bump 1 1048576] (mem w0) !! 1%N = Some 1049576 /\
  exists w',
    IOScope.lifetime (B:=build_on) 1%N "io"
      ([bump 1 1048576] ++ Finish :: [free 1; Finish]) w0
    = Ok (replicate (S (finishes [free 1; Finish]))
            (IOBytesDelta.mk (wrap64 1000) (wrap64 1049576)), w') /\
    trace w' = trace w0 ++ [EvLoad 1%N; EvLoad 1%N] /\
    mem w' = mem_after [free 1; Finish]
               (mem_after [bump 1 1048576] (mem w0)) /\
    mutex w' = mutex w0.
Proof.
  assert (1%N <> 0%N) as C by discriminate.
  assert (mem_after [bump 1 1048576] (mem w0) !! 1%N = Some 1049576) as H1
    by (vm_compute; reflexivity).
  split; [reflexivity|]. split; [exact C|]. split; [reflexivity|].
  split; [reflexivity|]. split; [exact H1|].
  exact (io_scope_measures_until_first_finish (B:=build_on) 1%N "io"
           [bump 1 1048576] [free 1; Finish] 1000 1049576 w0
           eq_refl C eq_refl eq_refl H1).
Defined.

Lemma multi_scope_measures_until_first_finish_witness :
  @CHEETAH_ENABLE_PERF build_on = true /\
  finishes [bump 1 300; bump 2 700] = 0%nat /\
  exists w',
    MultiIOScope.lifetime (B:=build_on) (Some sum_counters) "sum"
      ([bump 1 300; bump 2 700] ++ Finish :: [bump 1 5; Finish]) w0
    = Ok (replicate (S (finishes [bump 1 5; Finish]))
            (IOBytesDelta.mk
               (wrap64 (sum_counters (mem w0)).1)
               (wrap64 (sum_counters
                          (mem_after [bump 1 300; bump 2 700]
                             (sum_counters (mem w0)).2)).1)), w') /\
    trace w' = trace w0 ++ [EvCall; EvCall] /\
    mem w' = mem_after [bump 1 5; Finish]
               (sum_counters
                  (mem_after [bump 1 300; bump 2 700]
                     (sum_counters (mem w0)).2)).2 /\
    mutex w' = mutex w0.
Proof.
  split; [reflexivity|]. split; [reflexivity|].
  exact (multi_scope_measures_until_first_finish (B:=build_on) sum_counters
           "sum" [bump 1 300; bump 2 700] [bump 1 5; Finish] w0
           eq_refl eq_refl).
Defined.

Lemma mib_is_exact_below_2_53_witness :
  0 < IOBytesDelta.bytes (IOBytesDelta.mk 1000 2500) /\
  IOBytesDelta.bytes (IOBytesDelta.mk 1000 2500) < 2 ^ 53 /\
  exists m e,
    IOBytesDelta.mib (IOBytesDelta.mk 1000 2500) = S754_finite false m e /\
    e <= -20 /\
    Z.pos m = IOBytesDelta.bytes (IOBytesDelta.mk 1000 2500) * 2 ^ (- e - 20).
Proof.
  assert (0 < IOBytesDelta.bytes (IOBytesDelta.mk 1000 2500)) as P
    by reflexivity.
  assert (IOBytesDelta.bytes (IOBytesDelta.mk 1000 2500) < 2 ^ 53) as S
    by reflexivity.
  split; [exact P|]. split; [exact S|].
  exact (mib_is_exact_below_2_53 (IOBytesDelta.mk 1000 2500) P S).
Defined.

Lemma call_footprint_witness :
  mutex w0 = false /\
  (exists u w1,
     exec (B:=build_on) (OpMultiDtor sample_counting_scope) w0 = Ok (u, w1)) /\
  match exec (B:=build_on) (OpMultiDtor sample_counting_scope) w0 with
  | Ok (_, w') =>
      exists evs,
        trace w' = trace w0 ++ evs /\
        clock w' = clock w0 /\
        clock_reads w' = (clock_reads w0 + ticks evs)%nat /\
        (ticks evs <= 1)%nat /\ (reads evs <= 1)%nat /\
        (io_op (OpMultiDtor sample_counting_scope) = true -> ticks evs = 0%nat) /\
        (io_op (OpMultiDtor sample_counting_scope) = false ->
         reads evs = 0%nat) /\
        (multi_op (OpMultiDtor sample_counting_scope) = false ->
         mem w' = mem w0) /\
        (multi_op (OpMultiDtor sample_counting_scope) = true ->
         match accessor (OpMultiDtor sample_counting_scope) with
         | Some f =>
             (reads evs = 0%nat /\ mem w' = mem w0) \/
             (reads evs = 1%nat /\ mem w' = (f (mem w0)).2)
         | None => reads evs = 0%nat /\ mem w' = mem w0
         end)
  | Fault _ => True
  end.
Proof.
  split; [reflexivity|]. split.
  - destruct (exec (B:=build_on) (OpMultiDtor sample_counting_scope) w0)
      as [[u w1]|flt] eqn:E.
    + exists u, w1. reflexivity.
    + exfalso. vm_compute in E. discriminate E.
  - exact (call_footprint (B:=build_on) (OpMultiDtor sample_counting_scope) w0
             eq_refl).
Defined.

Lemma nested_timers_report_inner_first_witness :
  @CHEETAH_ENABLE_PERF build_on = true /\
  mutex w0 = false /\ width (cout_fmt w0) = 0%nat /\
  exists w' evs,
    nested_timers (B:=build_on) (Some "outer") (Some "inner") w0
    = Ok (tt, w') /\
    trace w' = trace w0 ++ evs /\
    written Cout evs
    = time_line (B:=build_on) (default EmptyString (Some "inner"))
        (@duration_ms build_on
           (clock w0 (2 + clock_reads w0)%nat
            - clock w0 (1 + clock_reads w0)%nat))
      +:+
      time_line (B:=build_on) (default EmptyString (Some "outer"))
        (@duration_ms build_on
           (clock w0 (3 + clock_reads w0)%nat - clock w0 (clock_reads w0))) /\
    written Cerr evs = EmptyString /\
    ticks evs = 4%nat /\ locks evs = 2%nat /\
    guarded false evs = true /\ mutex w' = false.
Proof.
  split; [reflexivity|]. split; [reflexivity|]. split; [reflexivity|].
  exact (nested_timers_report_inner_first (B:=build_on)
           (Some "outer") (Some "inner") w0 eq_refl eq_refl eq_refl).
Defined.

Lemma measurement_and_lock_order_witness :
  mutex w0 = false /\
  (exists u w1,
     exec (B:=build_on) (OpStageDone (StageTimer.mk "pre" None 0)) w0
     = Ok (u, w1)) /\
  match exec (B:=build_on) (OpStageDone (StageTimer.mk "pre" None 0)) w0 with
  | Ok (_, w') =>
      exists evs,
        trace w' = trace w0 ++ evs /\
        writes (inside false evs) = writes evs /\
        reads (inside false evs) = 0%nat /\
        ticks (inside false evs)
        = (if sets_left (OpStageDone (StageTimer.mk "pre" None 0))
           then ticks evs else 0%nat)
  | Fault _ => True
  end.
Proof.
  split; [reflexivity|]. split.
  - destruct (exec (B:=build_on) (OpStageDone (StageTimer.mk "pre" None 0))
                w0) as [[u w1]|flt] eqn:E.
    + exists u, w1. reflexivity.
    + exfalso. vm_compute in E. discriminate E.
  - exact (measurement_and_lock_order (B:=build_on)
             (OpStageDone (StageTimer.mk "pre" None 0)) w0 eq_refl).
Defined.

Lemma print_lines_concatenate_witness :
  @CHEETAH_ENABLE_PERF build_on = true /\
  mutex w0 = false /\ width (cout_fmt w0) = 0%nat /\
  exists w' evs,
    exec_all (B:=build_on) (map OpPrintLine ["a"; "bc"; "d"]) w0
    = Ok (tt, w') /\
    trace w' = trace w0 ++ evs /\
    written Cout evs = concat_lines ["a"; "bc"; "d"] /\
    written Cerr evs = EmptyString /\
    locks evs = length ["a"; "bc"; "d"] /\ ticks evs = 0%nat /\
    mutex w' = false /\ width (cout_fmt w') = 0%nat.
Proof.
  split; [reflexivity|]. split; [reflexivity|]. split; [reflexivity|].
  exact (print_lines_concatenate (B:=build_on) ["a"; "bc"; "d"] w0
           eq_refl eq_refl eq_refl).
Defined.

Lemma lock_free_calls_witness :
  lock_free (OpIOFinish sample_scope) = true /\
  match exec (B:=build_on) (OpIOFinish sample_scope) (set_mutex true w0) with
  | Ok (_, w') =>
      exists evs,
        trace w' = trace (set_mutex true w0) ++ evs /\
        locks evs = 0%nat /\ writes evs = [] /\
        mutex w' = mutex (set_mutex true w0) /\
        cout_fmt w' = cout_fmt (set_mutex true w0) /\
        cerr_fmt w' = cerr_fmt (set_mutex true w0)
  | Fault f => exists a, f = BadLoad a
  end.
Proof.
  split; [reflexivity|].
  exact (lock_free_calls (B:=build_on) (OpIOFinish sample_scope)
           (set_mutex true w0) eq_refl).
Defined.


Lemma unfinished_scope_reports_whole_life_witness :
  @CHEETAH_ENABLE_PERF build_on = true /\
  1%N <> 0%N /\ "io" <> EmptyString /\
  mem w0 !! 1%N = Some 1000 /\
  finishes [bump 1 1048576] = 0%nat /\
  mem_after [bump 1 1048576] (mem w0) !! 1%N = Some 1049576 /\
  mutex w0 = false /\ width (cerr_fmt w0) = 0%nat /\
  exists w' evs,
    IOScope.lifetime (B:=build_on) 1%N "io" [bump 1 1048576] w0
    = Ok ([], w') /\
    trace w' = trace w0 ++ EvLoad 1%N :: EvLoad 1%N :: EvLock :: evs /\
    written Cerr evs
    = io_line (B:=build_on) "io"
        (IOBytesDelta.mk (wrap64 1000) (wrap64 1049576)) /\
    written Cout evs = EmptyString /\
    reads evs = 0%nat /\
    guarded true evs = true /\
    mutex w' = false /\ mem w' = mem_after [bump 1 1048576] (mem w0).
Proof.
  assert (1%N <> 0%N) as C by discriminate.
  assert ("io" <> EmptyString) as L by discriminate.
  assert (mem_after [bump 1 1048576] (mem w0) !! 1%N = Some 1049576) as H1
    by (vm_compute; reflexivity).
  split; [reflexivity|]. split; [exact C|]. split; [exact L|].
  split; [reflexivity|]. split; [reflexivity|]. split; [exact H1|].
  split; [reflexivity|]. split; [reflexivity|].
  exact (unfinished_scope_reports_whole_life (B:=build_on) 1%N "io"
           [bump 1 1048576] 1000 1049576 w0
           eq_refl C L eq_refl eq_refl H1 eq_refl eq_refl).
Defined.

Lemma multi_scope_generalises_io_scope_witness :
  1%N <> 0%N /\
  (exists ds w1,
     IOScope.lifetime (B:=build_on) 1%N "io" sample_script w0
     = Ok (ds, w1)) /\
  match IOScope.lifetime (B:=build_on) 1%N "io" sample_script w0 with
  | Ok (ds, w1) =>
      MultiIOScope.lifetime (B:=build_on) (Some (read_counter 1)) "io"
        sample_script (with_calls w0)
      = Ok (ds, with_calls w1) /\
      writes (trace (with_calls w1)) = writes (trace w1)
  | Fault _ => True
  end.
Proof.
  assert (1%N <> 0%N) as C by discriminate.
  split; [exact C|]. split.
  - destruct (IOScope.lifetime (B:=build_on) 1%N "io" sample_script w0)
      as [[ds w1]|flt] eqn:E.
    + exists ds, w1. reflexivity.
    + exfalso. vm_compute in E. discriminate E.
  - exact (multi_scope_generalises_io_scope (B:=build_on) 1%N "io"
             sample_script w0 C).
Defined.
